(** * GRFMPrediction: ground reaction force / moment / CoP prediction

    A shallow embedding of
    [OpenSimRT/RealTime/src/experimental/GRFMPrediction.cpp].

    Conventions of the embedding.
    - A C++ [double] is a real number ([R]): arithmetic is the exact one,
      rounding, infinities and NaN are outside the model. A quotient whose
      divisor is zero is outside the model too (the code gets an infinity
      or NaN there): a statement that rests on the value of a quotient has
      the hypothesis that the divisor is not zero. Where a statement is
      about exactness itself, the code is modelled a second time on
      binary64 numbers (the primitive floats), in the module [B64].
    - [SimTK::Vec3] is a record of three reals, [SimTK::Rotation] and
      [SimTK::Inertia] are 3x3 matrices given by their rows.
    - The class members that [solve] mutates ([state], the gait direction
      buffer, the heel-strike anchors, [Tds], [Tss]) are the fields of the
      record [Engine]; every member function takes the engine and returns
      the new one.
    - The gait phase detector is read only through its getters, and is not
      advanced by [solve]: one call sees one [Detector] record.
    - What is written on [cerr] is returned as a list of lines.
    - The multibody model (OpenSim / Simbody) and the helpers of the
      repository that the file only calls are the operations of the class
      [ModelInterface]. *)

From Stdlib Require Import Reals Lra List String Ascii Bool Arith ZArith Lia.
From Stdlib Require Import DecimalString.
From Stdlib Require PrimFloat.
Import ListNotations.

Open Scope R_scope.

(** ** Vectors and matrices (SimTK) *)

Record Vec3 : Type := mkVec3 { vx : R; vy : R; vz : R }.

(** [Vec3(0)]: every element set to zero. *)
Definition Vec3_0 : Vec3 := mkVec3 0 0 0.

Definition vadd (a b : Vec3) : Vec3 :=
  mkVec3 (vx a + vx b) (vy a + vy b) (vz a + vz b).

Definition vsub (a b : Vec3) : Vec3 :=
  mkVec3 (vx a - vx b) (vy a - vy b) (vz a - vz b).

Definition smul (s : R) (a : Vec3) : Vec3 :=
  mkVec3 (s * vx a) (s * vy a) (s * vz a).

Definition dot (a b : Vec3) : R := vx a * vx b + vy a * vy b + vz a * vz b.

Definition cross (a b : Vec3) : Vec3 :=
  mkVec3 (vy a * vz b - vz a * vy b)
         (vz a * vx b - vx a * vz b)
         (vx a * vy b - vy a * vx b).

Definition norm (a : Vec3) : R := sqrt (dot a a).

Record Mat33 : Type := mkMat33 { row0 : Vec3; row1 : Vec3; row2 : Vec3 }.

Definition mat_vec (M : Mat33) (v : Vec3) : Vec3 :=
  mkVec3 (dot (row0 M) v) (dot (row1 M) v) (dot (row2 M) v).

Definition Mat33_id : Mat33 :=
  mkMat33 (mkVec3 1 0 0) (mkVec3 0 1 0) (mkVec3 0 0 1).

(** [SimTK::Rotation(q, Vec3(0, 1, 0))]: the rotation by the angle [q]
    about the vertical axis. *)
Definition Rotation_about_y (q : R) : Mat33 :=
  mkMat33 (mkVec3 (cos q) 0 (sin q))
          (mkVec3 0 1 0)
          (mkVec3 (- sin q) 0 (cos q)).

(** [SimTK::Transform]: a rotation and a translation. *)
Record Transform : Type := mkTransform { X_R : Mat33; X_p : Vec3 }.

Definition transform_point (X : Transform) (v : Vec3) : Vec3 :=
  vadd (mat_vec (X_R X) v) (X_p X).

(** [SimTK::SpatialVec]: element 0 is the angular part, element 1 the
    linear part. *)
Record SpatialVec : Type := mkSpatialVec { sv0 : Vec3; sv1 : Vec3 }.

(** ** Helpers of [Utils.h] *)

(** Modelled from the spec: [clip] of [Utils.h] is not in the sources at
    hand. The comments at its two call sites say that it keeps a value in
    the range [[lower, upper]]: a value below the range becomes [lower], a
    value above it [upper], a value inside it is returned as it is. *)
Definition clip (n lower upper : R) : R := Rmax lower (Rmin n upper).

(** ** The closures set up by the constructor *)

(** [reactionComponentTransition] (lines 71-76). The lambda captures the
    member [Tds] by reference, so it reads the value the member has when
    it is called: [Tds] is an argument here. [std::pow(x, 3)] is [x ^ 3]. *)
Definition reactionComponentTransition (Tds : R) (t : R) : R :=
  clip (exp (- ((2 * t / Tds) ^ 3))) 0 1.

(** The scale factor computed inside [copPosition] (lines 81-87). *)
Definition copScale (Tss : R) (t : R) : R :=
  let omega := 2 * PI / Tss in
  clip (-2 / (3 * PI) *
        (sin (omega * t) - sin (2 * omega * t) / 8 - 3 / 4 * omega * t))
       0 1.

(** [copPosition] (lines 80-90), with the captured member [Tss] as an
    argument. *)
Definition copPosition (Tss : R) (t : R) (d : Vec3) : Vec3 :=
  let scale := copScale Tss t in
  smul scale d.

(** ** Method selection *)

Inductive Method : Type := NewtonEuler | InverseDynamics.

(** A call either returns or leaves through [THROW_EXCEPTION]. *)
Inductive Except (A : Type) : Type :=
| Return (a : A)
| Thrown (what : string).
Arguments Return {A} a.
Arguments Thrown {A} what.

(** [std::tolower] in the C locale: the 26 upper-case letters move to
    their lower-case ones, every other character stays. *)
Definition tolower (c : ascii) : ascii :=
  let n := nat_of_ascii c in
  if (65 <=? n)%nat && (n <=? 90)%nat then ascii_of_nat (n + 32) else c.

(** [SimTK::String::toLower]: [tolower] on every character. *)
Fixpoint toLower (s : string) : string :=
  match s with
  | EmptyString => EmptyString
  | String c s' => String (tolower c) (toLower s')
  end.

(** [std::find(v.begin(), v.end(), x) != v.end()]. *)
Definition found (v : list string) (x : string) : bool :=
  existsb (String.eqb x) v.

Definition validNENames : list string :=
  ["newtoneuler"; "newton-euler"; "newton_euler"; "ne"]%string.

Definition validIDNames : list string :=
  ["inversedynamics"; "inverse-dynamics"; "inverse_dynamics"; "id"]%string.

(** [GRFMPrediction::selectMethod] (lines 93-110). *)
Definition selectMethod (methodName : string) : Except Method :=
  if found validNENames (toLower methodName) then Return NewtonEuler
  else if found validIDNames (toLower methodName) then Return InverseDynamics
  else Thrown "Wrong input method. Select appropriate input name.".

(** Two names are the same up to case when they have the same length and,
    position by position, the same character once upper-case letters are
    read as lower-case ones. This is the reading of "case-insensitively"
    that the statements about [selectMethod] are compared with. *)
Fixpoint caseless_eq (a b : string) : Prop :=
  match a, b with
  | EmptyString, EmptyString => True
  | String x a', String y b' => tolower x = tolower y /\ caseless_eq a' b'
  | _, _ => False
  end.

(** ** The gait phase detector (GaitPhaseDetector.h) *)

(** [GaitPhaseState::GaitPhase]. *)
Module GaitPhase.
Inductive t : Type := INVALID | RIGHT_SWING | LEFT_SWING | DOUBLE_SUPPORT.
End GaitPhase.

(** [GaitPhaseState::LeadingLeg]. *)
Module LeadingLeg.
Inductive t : Type := INVALID | RIGHT | LEFT.
End LeadingLeg.

(** What the getters of the detector answer during one call of [solve]. *)
Record Detector : Type := mkDetector {
  isDetectorReady : bool;
  getPhase : GaitPhase.t;
  getLeadingLeg : LeadingLeg.t;
  getHeelStrikeTime : R;
  getToeOffTime : R;
  getDoubleSupportDuration : R;
  getSingleSupportDuration : R
}.

(** ** The multibody model and the helpers the file calls *)

(** An [OpenSim::Body] as far as the file reads it. *)
Record Body : Type := mkBody {
  getMobilizedBodyIndex : nat;
  getMass : R;
  getInertia : Mat33
}.

(** The operations of OpenSim, Simbody, [OpenSimUtils] and
    [CircularBuffer] that the file calls and whose code is elsewhere.
    A body is looked up by name in the body set of the model ([getBody];
    the names of the parameters are taken to be names of bodies, OpenSim
    throws on any other); vectors of spatial vectors are read by
    mobilized body index. *)
Class ModelInterface : Type := {
  State : Type;
  Vector : Type;
  Buffer : Type;
  updateState : State -> Vector -> Vector -> State;
  realizeDynamics : State -> State;
  getBodySet : list Body;
  getBody : string -> Body;
  getBodyTransform : State -> nat -> Transform;
  getGravity : Vec3;
  getMobilityForces : State -> Vector;
  getRigidBodyForces : State -> nat -> SpatialVec;
  calcResidualForceIgnoringConstraints :
    State -> Vector -> (nat -> SpatialVec) -> Vector -> Vector;
  multiplyBySystemJacobian : State -> Vector -> nat -> SpatialVec;
  calcBodyAccelerationFromUDot : State -> Vector -> nat -> SpatialVec;
  buffer_insert : Buffer -> Vec3 -> Buffer;
  buffer_mean : Buffer -> Vec3;
  projectionOnPlane : Vec3 -> Vec3 -> Vec3 -> Vec3
}.

(** [GRFMPrediction::Parameters]. *)
Record Parameters : Type := mkParameters {
  directionWindowSize : nat;
  method : Method;
  pelvisBodyName : string;
  rStationBodyName : string;
  lStationBodyName : string;
  rHeelStationLocation : Vec3;
  lHeelStationLocation : Vec3;
  rToeStationLocation : Vec3;
  lToeStationLocation : Vec3
}.

(** An [OpenSim::Station]: a point fixed on a body, given in the frame of
    that body. *)
Record Station : Type := mkStation {
  station_body : string;
  station_location : Vec3
}.

(** The four stations the constructor adds to the model (lines 40-51). *)
Definition heelStationR (p : Parameters) : Station :=
  mkStation (rStationBodyName p) (rHeelStationLocation p).
Definition heelStationL (p : Parameters) : Station :=
  mkStation (lStationBodyName p) (lHeelStationLocation p).
Definition toeStationR (p : Parameters) : Station :=
  mkStation (rStationBodyName p) (rToeStationLocation p).
Definition toeStationL (p : Parameters) : Station :=
  mkStation (lStationBodyName p) (lToeStationLocation p).

(** One leg of the output and the whole output. *)
Record Wrench : Type := mkWrench { force : Vec3; torque : Vec3; point : Vec3 }.
Record Output : Type := mkOutput { out_t : R; right : Wrench; left : Wrench }.

Definition TransitionFuction : Type := R -> R.

(** The two components and the lines written on [cerr]. *)
Definition Split : Type := (Vec3 * Vec3 * list string)%type.

(** The trailing leg component (lines 292-298). *)
Definition trailingComponent (totalReactionAtThs : Vec3)
    (anteriorComponentFunction verticalComponentFunction
       lateralComponentFunction : TransitionFuction) (time : R) : Vec3 :=
  mkVec3 (vx totalReactionAtThs * anteriorComponentFunction time)
         (vy totalReactionAtThs * verticalComponentFunction time)
         (vz totalReactionAtThs * lateralComponentFunction time).

(** [GRFMPrediction::seperateReactionComponents] (lines 280-335). The two
    last arguments are what the references [rightReactionComponent] and
    [leftReactionComponent] hold when the function is entered: a branch
    that assigns nothing returns them. *)
Definition seperateReactionComponents (det : Detector) (time : R)
    (totalReactionComponent totalReactionAtThs : Vec3)
    (anteriorComponentFunction verticalComponentFunction
       lateralComponentFunction : TransitionFuction)
    (rightReactionComponent leftReactionComponent : Vec3) : Split :=
  match getPhase det with
  | GaitPhase.DOUBLE_SUPPORT =>
      let trailingReactionComponent :=
        trailingComponent totalReactionAtThs anteriorComponentFunction
          verticalComponentFunction lateralComponentFunction time in
      let leadingReactionComponent :=
        vsub totalReactionComponent trailingReactionComponent in
      match getLeadingLeg det with
      | LeadingLeg.RIGHT =>
          (leadingReactionComponent, trailingReactionComponent, [])
      | LeadingLeg.LEFT =>
          (trailingReactionComponent, leadingReactionComponent, [])
      | LeadingLeg.INVALID =>
          (rightReactionComponent, leftReactionComponent,
           ["STA: invalid LeadingLeg state!"%string])
      end
  | GaitPhase.LEFT_SWING => (totalReactionComponent, Vec3_0, [])
  | GaitPhase.RIGHT_SWING => (Vec3_0, totalReactionComponent, [])
  | _ => (Vec3_0, Vec3_0, [])
  end.

(** The members of [GRFMPrediction] that a call can change, and the
    parameters. *)
Record Engine `{ModelInterface} : Type := mkEngine {
  parameters : Parameters;
  state : State;
  gaitDirectionBuffer : Buffer;
  totalForceAtThs : Vec3;
  totalMomentAtThs : Vec3;
  Tds : R;
  Tss : R
}.

(** The input of [solve]. *)
Record Input `{ModelInterface} : Type := mkInput {
  in_t : R;
  q : Vector;
  qDot : Vector;
  qDDot : Vector
}.

(** What the six [Vec3] locals of [solve] hold before anything is
    assigned to them. [SimTK::Vec] has a default constructor that sets no
    element (in a debug build it sets NaN), so the content is not fixed by
    the program: it is an argument of the model. *)
Record Locals : Type := mkLocals {
  rightReactionForce0 : Vec3;
  leftReactionForce0 : Vec3;
  rightReactionMoment0 : Vec3;
  leftReactionMoment0 : Vec3;
  rightPoint0 : Vec3;
  leftPoint0 : Vec3
}.

Section GRFMPrediction.

Context `{M : ModelInterface}.

(** [Station::getLocationInGround]: the location of the station in the
    frame of its body, taken to the ground frame by the transform the
    body has in the state. *)
Definition getLocationInGround (s : Station) (st : State) : Vec3 :=
  transform_point
    (getBodyTransform st (getMobilizedBodyIndex (getBody (station_body s))))
    (station_location s).

(** The body of the loop of the Newton-Euler method (lines 166-177). *)
Definition newtonEulerStep (bodyVelocities bodyAccelerations : nat -> SpatialVec)
    (acc : Vec3 * Vec3) (body : Body) : Vec3 * Vec3 :=
  let bix := getMobilizedBodyIndex body in
  let I := getInertia body in
  (vadd (fst acc)
        (smul (getMass body) (vsub (sv1 (bodyAccelerations bix)) getGravity)),
   vadd (snd acc)
        (vadd (mat_vec I (sv0 (bodyAccelerations bix)))
              (cross (sv0 (bodyVelocities bix))
                     (mat_vec I (sv0 (bodyVelocities bix)))))).

(** [GRFMPrediction::computeTotalReactionComponents] (lines 112-180).
    The two last arguments are the values of the two references at
    entry; the result is their values at exit. *)
Definition computeTotalReactionComponents (p : Parameters) (st : State)
    (input : Input) (totalReactionForce totalReactionMoment : Vec3)
    : Vec3 * Vec3 :=
  match method p with
  | InverseDynamics =>
      let appliedMobilityForces := getMobilityForces st in
      let appliedBodyForces := getRigidBodyForces st in
      let tau :=
        calcResidualForceIgnoringConstraints st appliedMobilityForces
          appliedBodyForces (qDDot input) in
      let spatialGenForces := multiplyBySystemJacobian st tau in
      let idx := getMobilizedBodyIndex (getBody (pelvisBodyName p)) in
      (sv1 (spatialGenForces idx), sv0 (spatialGenForces idx))
  | NewtonEuler =>
      let bodyVelocities := multiplyBySystemJacobian st (qDot input) in
      let bodyAccelerations :=
        calcBodyAccelerationFromUDot st (qDDot input) in
      fold_left (newtonEulerStep bodyVelocities bodyAccelerations)
        getBodySet (totalReactionForce, totalReactionMoment)
  end.

(** [GRFMPrediction::computeGaitDirectionRotation] (lines 182-207):
    the rotation and the buffer after the insertion. *)
Definition computeGaitDirectionRotation (st : State) (buf : Buffer)
    (bodyName : string) : Mat33 * Buffer :=
  let R_GB :=
    X_R (getBodyTransform st (getMobilizedBodyIndex (getBody bodyName))) in
  let buf' := buffer_insert buf (row0 R_GB) in
  let gaitDirection :=
    projectionOnPlane (buffer_mean buf') Vec3_0 (mkVec3 0 1 0) in
  let crossProd := cross gaitDirection (mkVec3 1 0 0) in
  let dotProd := dot gaitDirection (mkVec3 1 0 0) in
  let q := atan (norm crossProd / dotProd) in
  (Rotation_about_y q, buf').

(** [GRFMPrediction::computeReactionPoint] (lines 337-395): the new
    value of the member [Tss], the two points at exit and the lines
    written on [cerr]. [rightPoint] and [leftPoint] are the values of
    the references at entry. *)
Definition computeReactionPoint (p : Parameters) (st : State)
    (det : Detector) (t : R) (rightPoint leftPoint : Vec3)
    : R * Split :=
  let Tss := getSingleSupportDuration det in
  (Tss,
   match getPhase det with
   | GaitPhase.DOUBLE_SUPPORT =>
       match getLeadingLeg det with
       | LeadingLeg.RIGHT =>
           (getLocationInGround (heelStationR p) st,
            getLocationInGround (toeStationL p) st, [])
       | LeadingLeg.LEFT =>
           (getLocationInGround (toeStationR p) st,
            getLocationInGround (heelStationL p) st, [])
       | LeadingLeg.INVALID =>
           (rightPoint, leftPoint, ["CoP: invalid LeadingLeg state!"%string])
       end
   | GaitPhase.LEFT_SWING =>
       let d := vsub (getLocationInGround (toeStationR p) st)
                     (getLocationInGround (heelStationR p) st) in
       let time := t - getToeOffTime det in
       (vadd (getLocationInGround (heelStationR p) st)
             (copPosition Tss time d),
        Vec3_0, [])
   | GaitPhase.RIGHT_SWING =>
       let d := vsub (getLocationInGround (toeStationL p) st)
                     (getLocationInGround (heelStationL p) st) in
       let time := t - getToeOffTime det in
       (Vec3_0,
        vadd (getLocationInGround (heelStationL p) st)
             (copPosition Tss time d),
        [])
   | _ => (Vec3_0, Vec3_0, [])
   end).

(** The state of the model after lines 222-223. *)
Definition realizedState (eng : Engine) (input : Input) : State :=
  realizeDynamics (updateState (state eng) (q input) (qDot input)).

(** The rotation to the heading frame and the buffer after line 226. *)
Definition headingRotation (eng : Engine) (input : Input) : Mat33 * Buffer :=
  computeGaitDirectionRotation (realizedState eng input)
    (gaitDirectionBuffer eng) (pelvisBodyName (parameters eng)).

(** The total reaction force and moment in the heading frame, as the
    locals [totalReactionForce] and [totalReactionMoment] hold them
    after lines 229-235. *)
Definition rotatedTotalReaction (eng : Engine) (input : Input) : Vec3 * Vec3 :=
  let R := fst (headingRotation eng input) in
  let total :=
    computeTotalReactionComponents (parameters eng)
      (realizedState eng input) input Vec3_0 Vec3_0 in
  (mat_vec R (fst total), mat_vec R (snd total)).

(** What [solve] gives back: the output, the engine after the call and
    the lines written on [cerr]. *)
Record Solved : Type := mkSolved {
  output : Output;
  engine : Engine;
  cerr : list string
}.

(** [GRFMPrediction::solve] (lines 209-278). [uninit] is the content of
    the default constructed locals. *)
Definition solve (eng : Engine) (det : Detector) (uninit : Locals)
    (input : Input) : Solved :=
  let output0 :=
    mkOutput (in_t input) (mkWrench Vec3_0 Vec3_0 Vec3_0)
             (mkWrench Vec3_0 Vec3_0 Vec3_0) in
  if isDetectorReady det then
    let st := realizedState eng input in
    let buf := snd (headingRotation eng input) in
    let totalReactionForce := fst (rotatedTotalReaction eng input) in
    let totalReactionMoment := snd (rotatedTotalReaction eng input) in
    let time := in_t input - getHeelStrikeTime det in
    let atThs :=
      if Req_dec_T time 0 then (totalReactionForce, totalReactionMoment)
      else (totalForceAtThs eng, totalMomentAtThs eng) in
    let Tds := getDoubleSupportDuration det in
    let forces :=
      seperateReactionComponents det time totalReactionForce (fst atThs)
        (reactionComponentTransition Tds) (reactionComponentTransition Tds)
        (reactionComponentTransition Tds)
        (rightReactionForce0 uninit) (leftReactionForce0 uninit) in
    let moments :=
      seperateReactionComponents det time totalReactionMoment (snd atThs)
        (reactionComponentTransition Tds) (reactionComponentTransition Tds)
        (reactionComponentTransition Tds)
        (rightReactionMoment0 uninit) (leftReactionMoment0 uninit) in
    let cop :=
      computeReactionPoint (parameters eng) st det (in_t input)
        (rightPoint0 uninit) (leftPoint0 uninit) in
    let points := snd cop in
    mkSolved
      (mkOutput (in_t input)
         (mkWrench (fst (fst forces)) (fst (fst moments)) (fst (fst points)))
         (mkWrench (snd (fst forces)) (snd (fst moments)) (snd (fst points))))
      (mkEngine M (parameters eng) st buf (fst atThs) (snd atThs) Tds (fst cop))
      (snd forces ++ snd moments ++ snd points)
  else
    mkSolved output0 eng [].

End GRFMPrediction.

(** ** The reading of the CoP rule of double support that gives the toe
       to the leading leg *)

(** The leading leg has its CoP on its toe station and the trailing leg
    has its CoP on its heel station, both located in the ground frame in
    the state the call has realized. *)
Definition cop_leading_toe_trailing_heel `{M : ModelInterface}
    (eng : Engine) (det : Detector) (uninit : Locals) (input : Input) : Prop :=
  let out := output (solve eng det uninit input) in
  let p := parameters eng in
  let st := realizedState eng input in
  isDetectorReady det = true ->
  getPhase det = GaitPhase.DOUBLE_SUPPORT ->
  (getLeadingLeg det = LeadingLeg.RIGHT ->
   point (right out) = getLocationInGround (toeStationR p) st /\
   point (left out) = getLocationInGround (heelStationL p) st) /\
  (getLeadingLeg det = LeadingLeg.LEFT ->
   point (left out) = getLocationInGround (toeStationL p) st /\
   point (right out) = getLocationInGround (heelStationR p) st).

(** ** A small model for the examples *)

(** One body of unit mass that slides over the ground and never turns.
    Its state is its position, the coordinates are the position too, the
    heading buffer is the list of the inserted directions. *)
Module Slider.

Definition body : Body := mkBody 1 1 Mat33_id.

Definition sum (l : list Vec3) : Vec3 := fold_right vadd Vec3_0 l.

Definition mean (l : list Vec3) : Vec3 := smul (/ INR (List.length l)) (sum l).

Definition project (v origin normal : Vec3) : Vec3 :=
  vsub v (smul (dot (vsub v origin) normal) normal).

Definition model : ModelInterface :=
  {| State := Vec3;
     Vector := Vec3;
     Buffer := list Vec3;
     updateState := fun _ q _ => q;
     realizeDynamics := fun st => st;
     getBodySet := [body];
     getBody := fun _ => body;
     getBodyTransform := fun st _ => mkTransform Mat33_id st;
     getGravity := mkVec3 0 (-10) 0;
     getMobilityForces := fun _ => Vec3_0;
     getRigidBodyForces := fun _ _ => mkSpatialVec Vec3_0 Vec3_0;
     calcResidualForceIgnoringConstraints :=
       fun _ _ _ udot => vsub udot (mkVec3 0 (-10) 0);
     multiplyBySystemJacobian := fun _ u _ => mkSpatialVec Vec3_0 u;
     calcBodyAccelerationFromUDot := fun _ udot _ => mkSpatialVec Vec3_0 udot;
     buffer_insert := fun b v => v :: b;
     buffer_mean := mean;
     projectionOnPlane := project |}.

(** Heel stations at the origin of the foot, toe stations one unit
    ahead of them. *)
Definition params : Parameters :=
  mkParameters 10 NewtonEuler "pelvis" "calcn_r" "calcn_l"
    Vec3_0 Vec3_0 (mkVec3 1 0 0) (mkVec3 1 0 0).

Definition engine0 : @Engine model :=
  @mkEngine model params Vec3_0 [] Vec3_0 Vec3_0 1 1.

(** A sample at time 2, the body at rest at the origin. *)
Definition input0 : @Input model := @mkInput model 2 Vec3_0 Vec3_0 Vec3_0.

(** Locals that hold something else than zero. *)
Definition ones : Vec3 := mkVec3 1 1 1.
Definition uninit1 : Locals := mkLocals ones ones ones ones ones ones.

(** Detector answers: heel strike at time 1, toe off at time 1,
    both support durations 1. *)
Definition detector (ready : bool) (phase : GaitPhase.t)
    (leg : LeadingLeg.t) : Detector :=
  mkDetector ready phase leg 1 1 1 1.

(** The same detector in the call that sees the heel strike of the
    sample [input0]. *)
Definition detector_at_heel_strike (leg : LeadingLeg.t) : Detector :=
  mkDetector true GaitPhase.DOUBLE_SUPPORT leg 2 1 1 1.

End Slider.

(** ** More of GRFMPrediction.cpp *)

(** The angle of lines 201-204 of [computeGaitDirectionRotation], as a
    function of the mean heading projected on the ground plane. *)
Definition headingAngle (gaitDirection : Vec3) : R :=
  let crossProd := cross gaitDirection (mkVec3 1 0 0) in
  let dotProd := dot gaitDirection (mkVec3 1 0 0) in
  atan (norm crossProd / dotProd).

(** The argument of the clip in [copPosition] (lines 84-86). *)
Definition copProgress (Tss : R) (t : R) : R :=
  let omega := 2 * PI / Tss in
  -2 / (3 * PI) *
  (sin (omega * t) - sin (2 * omega * t) / 8 - 3 / 4 * omega * t).

(** The bracket of lines 85-86 as a function of the phase [omega * t]. *)
Definition copShape (x : R) : R := sin x - sin (2 * x) / 8 - 3 / 4 * x.

(** The sum of the masses of a list of bodies. *)
Definition totalMass (bodies : list Body) : R :=
  fold_right (fun body acc => getMass body + acc) 0 bodies.

(** One call of [solve] after the other on the same engine: the engine
    after the last call. *)
Fixpoint solve_stream `{M : ModelInterface} (eng : Engine)
    (calls : list (Detector * Locals * Input)) : Engine :=
  match calls with
  | [] => eng
  | (det, uninit, input) :: rest =>
      solve_stream (engine (solve eng det uninit input)) rest
  end.

(** The call is one that can latch the anchors: the detector is ready and
    the sample is at the time of the heel strike (line 241). *)
Definition at_heel_strike `{M : ModelInterface}
    (call : Detector * Locals * Input) : Prop :=
  isDetectorReady (fst (fst call)) = true /\
  in_t (snd call) - getHeelStrikeTime (fst (fst call)) = 0.

(** ** The splitter on binary64 *)

Module B64.

Import PrimFloat.

(** A [SimTK::Vec3] of doubles. *)
Record Vec3 : Type := mkVec3 { b_x : float; b_y : float; b_z : float }.

Definition vadd (a b : Vec3) : Vec3 :=
  mkVec3 (b_x a + b_x b)%float (b_y a + b_y b)%float (b_z a + b_z b)%float.

Definition vsub (a b : Vec3) : Vec3 :=
  mkVec3 (b_x a - b_x b)%float (b_y a - b_y b)%float (b_z a - b_z b)%float.

Definition Vec3_0 : Vec3 := mkVec3 0%float 0%float 0%float.

Definition TransitionFuction : Type := float -> float.

(** The trailing leg component (lines 292-298), in double arithmetic. *)
Definition trailingComponent (totalReactionAtThs : Vec3)
    (anteriorComponentFunction verticalComponentFunction
       lateralComponentFunction : TransitionFuction) (time : float) : Vec3 :=
  mkVec3 (b_x totalReactionAtThs * anteriorComponentFunction time)%float
         (b_y totalReactionAtThs * verticalComponentFunction time)%float
         (b_z totalReactionAtThs * lateralComponentFunction time)%float.

(** [GRFMPrediction::seperateReactionComponents] (lines 280-335) with
    the doubles as binary64 numbers; of the detector it reads the phase
    and the leading leg only. *)
Definition seperateReactionComponents (det : Detector) (time : float)
    (totalReactionComponent totalReactionAtThs : Vec3)
    (anteriorComponentFunction verticalComponentFunction
       lateralComponentFunction : TransitionFuction)
    (rightReactionComponent leftReactionComponent : Vec3)
    : Vec3 * Vec3 * list string :=
  match getPhase det with
  | GaitPhase.DOUBLE_SUPPORT =>
      let trailingReactionComponent :=
        trailingComponent totalReactionAtThs anteriorComponentFunction
          verticalComponentFunction lateralComponentFunction time in
      let leadingReactionComponent :=
        vsub totalReactionComponent trailingReactionComponent in
      match getLeadingLeg det with
      | LeadingLeg.RIGHT =>
          (leadingReactionComponent, trailingReactionComponent, [])
      | LeadingLeg.LEFT =>
          (trailingReactionComponent, leadingReactionComponent, [])
      | LeadingLeg.INVALID =>
          (rightReactionComponent, leftReactionComponent,
           ["STA: invalid LeadingLeg state!"%string])
      end
  | GaitPhase.LEFT_SWING => (totalReactionComponent, Vec3_0, [])
  | GaitPhase.RIGHT_SWING => (Vec3_0, totalReactionComponent, [])
  | _ => (Vec3_0, Vec3_0, [])
  end.

(** The split of double support is exact: with a leg that leads, the
    right component plus the left component, added as doubles, is the
    total on every axis. *)
Definition split_sum_exact (det : Detector) (time : float)
    (total atThs : Vec3) (fa fv fl : TransitionFuction)
    (r0 l0 : Vec3) : Prop :=
  getPhase det = GaitPhase.DOUBLE_SUPPORT ->
  getLeadingLeg det = LeadingLeg.RIGHT \/
  getLeadingLeg det = LeadingLeg.LEFT ->
  let split :=
    seperateReactionComponents det time total atThs fa fv fl r0 l0 in
  vadd (fst (fst split)) (snd (fst split)) = total.

Definition transition_half : TransitionFuction := fun _ => 0.5%float.
Definition tenth_total : Vec3 :=
  mkVec3 0x1.999999999999ap-4%float 0%float 0%float.
Definition unit_anchor : Vec3 := mkVec3 1%float 0%float 0%float.

End B64.

(** * Visualization.cpp *)

Module Visualization.

(** [SimTK::DecorativeGeometry], for the two kinds the file builds. *)
Inductive DecorativeGeometry : Type :=
| DecorativeText (isScreenText : bool) (text : string)
| DecorativeLine (p1 p2 : Vec3) (color : Vec3) (lineThickness : Z).

(** [std::to_string] on an [int]: the decimal digits, after a minus sign
    for a negative number. *)
Definition to_string (n : Z) : string := NilZero.string_of_int (Z.to_int n).

(** The two function-local statics of [measureFPS]. *)
Record Statics : Type := mkStatics { counter : Z; previousTime : Z }.

(** The text of an [FPSDecorator] and the statics of [measureFPS] as they
    are when the decorator is used. The statics belong to the function,
    not to the object: every [FPSDecorator] of the process reads and
    writes the same two. They are [None] until the first call of
    [measureFPS] in the process, which is the one that initializes them.
    Times are ticks of [high_resolution_clock]. *)
Record FPSDecorator : Type := mkFPSDecorator {
  text : string;
  statics : option Statics
}.

(** [FPSDecorator::FPSDecorator] (line 12): the text is empty; the
    statics of [measureFPS] are not touched, the new decorator finds them
    as [shared], the state the calls made so far have left them in. *)
Definition FPSDecorator_new (shared : option Statics) : FPSDecorator :=
  mkFPSDecorator "" shared.

(** [FPSDecorator::generateDecorations] (lines 14-20). *)
Definition FPS_generateDecorations (d : FPSDecorator)
    (geometry : list DecorativeGeometry) : list DecorativeGeometry :=
  geometry ++ [DecorativeText true (text d)].

Section MeasureFPS.

(** [toString] of [Utils.h], which prints a double with a number of
    decimals, and the number of clock ticks in a millisecond. *)
Variable toString : R -> nat -> string.
Variable ticksPerMs : Z.

(** [duration_cast<milliseconds>]: the whole milliseconds of a number of
    ticks, rounded towards zero. *)
Definition milliseconds_of (ticks : Z) : Z := Z.quot ticks ticksPerMs.

(** [FPSDecorator::measureFPS] (lines 22-34). [now0] is the reading of
    the clock that initializes [previousTime], taken by the first call
    only; [now1] is the reading [currentTime]. The counter is an integer
    without a bound. *)
Definition measureFPS (d : FPSDecorator) (now0 now1 : Z) : FPSDecorator :=
  let s := match statics d with
           | Some s => s
           | None => mkStatics 0 now0
           end in
  let counter := (counter s + 1)%Z in
  let currentTime := now1 in
  let duration := milliseconds_of (currentTime - previousTime s) in
  if (1000 <? duration)%Z then
    mkFPSDecorator
      ("FPS: " ++ to_string counter ++ " | Delay: " ++
       toString (1000 / IZR counter) 2 ++ "ms")
      (Some (mkStatics 0 currentTime))
  else
    mkFPSDecorator (text d) (Some (mkStatics counter (previousTime s))).

(** Calls of [measureFPS] one after the other, one pair of clock
    readings for each. *)
Fixpoint measureFPS_stream (d : FPSDecorator) (clock : list (Z * Z))
    : FPSDecorator :=
  match clock with
  | [] => d
  | (now0, now1) :: rest => measureFPS_stream (measureFPS d now0 now1) rest
  end.

End MeasureFPS.

(** A [ForceDecorator]. *)
Record ForceDecorator : Type := mkForceDecorator {
  color : Vec3;
  scaleFactor : R;
  lineThikness : Z;
  fd_point : Vec3;
  fd_force : Vec3
}.

(** [ForceDecorator::update] (lines 41-44). *)
Definition ForceDecorator_update (d : ForceDecorator) (point force : Vec3)
    : ForceDecorator :=
  mkForceDecorator (color d) (scaleFactor d) (lineThikness d) point force.

(** [ForceDecorator::generateDecorations] (lines 46-52). *)
Definition ForceDecorator_generateDecorations (d : ForceDecorator)
    (geometry : list DecorativeGeometry) : list DecorativeGeometry :=
  let line :=
    DecorativeLine (fd_point d)
      (vadd (fd_point d) (smul (scaleFactor d) (fd_force d)))
      (color d) (lineThikness d) in
  geometry ++ [line].

(** The model with muscles and the key codes that
    [BasicModelVisualizer::update] works on. *)
Class MuscleModel : Type := {
  VState : Type;
  updQ : VState -> list R -> VState;
  getMusclesSize : nat;
  setActivation : nat -> VState -> R -> VState;
  KeyEsc : N
}.

Section BasicModelVisualizer.

Context `{MM : MuscleModel}.
Variable toString : R -> nat -> string.
Variable ticksPerMs : Z.

(** The members of a [BasicModelVisualizer] that [update] works on;
    [reported] is the list of the states given to the visualizer, the
    last one first. *)
Record BasicModelVisualizer : Type := mkBasicModelVisualizer {
  fps : FPSDecorator;
  vstate : VState;
  reported : list VState;
  shouldTerminate : bool
}.

(** The loop of lines 81-83. *)
Definition setActivations (st : VState) (muscleActivations : list R) : VState :=
  fold_left (fun st ia => setActivation (fst ia) st (snd ia))
    (combine (seq 0 getMusclesSize) muscleActivations) st.

(** [BasicModelVisualizer::update] (lines 72-94). [keyHit] is the key and
    the modifiers that [takeKeyHit] hands over, if there is a key hit. *)
Definition update (v : BasicModelVisualizer) (now0 now1 : Z)
    (q muscleActivations : list R) (keyHit : option (N * N))
    : BasicModelVisualizer :=
  let fps' := measureFPS toString ticksPerMs (fps v) now0 now1 in
  let st := updQ (vstate v) q in
  let st :=
    if (List.length muscleActivations =? getMusclesSize)%nat
    then setActivations st muscleActivations
    else st in
  let terminate :=
    match keyHit with
    | Some (key, modifiers) =>
        if (key =? KeyEsc)%N then true else shouldTerminate v
    | None => shouldTerminate v
    end in
  mkBasicModelVisualizer fps' st (st :: reported v) terminate.

(** The arguments of one call of [update]. *)
Record Frame : Type := mkFrame {
  frame_now0 : Z;
  frame_now1 : Z;
  frame_q : list R;
  frame_activations : list R;
  frame_key : option (N * N)
}.

Fixpoint update_stream (v : BasicModelVisualizer) (frames : list Frame)
    : BasicModelVisualizer :=
  match frames with
  | [] => v
  | f :: rest =>
      update_stream
        (update v (frame_now0 f) (frame_now1 f) (frame_q f)
           (frame_activations f) (frame_key f)) rest
  end.

End BasicModelVisualizer.

End Visualization.

(** The statics of [measureFPS] are not initialized yet and [k] is 0, or
    the counter is between 0 and [k]. *)
Definition counter_within (d : Visualization.FPSDecorator) (k : Z) : Prop :=
  match Visualization.statics d with
  | None => k = 0%Z
  | Some s => (0 <= Visualization.counter s <= k)%Z
  end.

(** * IMUCalibrator.h *)

Module IMUCalibrator.

Section DriverErasure.

(** The [IMUData] type of the driver. *)
Variable T : Type.

(** A [DriverErasure<T>]. The driver is the sequence of the frames that
    its [getData] returns, call after call; [served] counts the calls
    made so far. [cout] is what has been printed, line by line. *)
Record DriverErasure : Type := mkDriverErasure {
  m_driver : nat -> list T;
  served : nat;
  initIMUDataTable : list (list T);
  cout : list string
}.

(** The loop of [recordNumOfSamples] (lines 153-159), for the [n] rounds
    that are left. *)
Fixpoint recordLoop (n : nat) (d : DriverErasure) : DriverErasure :=
  match n with
  | O => d
  | S n' =>
      recordLoop n'
        (mkDriverErasure (m_driver d) (S (served d))
           (initIMUDataTable d ++ [m_driver d (served d)]) (cout d))
  end.

(** [DriverErasure::recordNumOfSamples] (lines 151-160). *)
Definition recordNumOfSamples (d : DriverErasure) (numSamples : nat)
    : DriverErasure :=
  recordLoop numSamples
    (mkDriverErasure (m_driver d) (served d) (initIMUDataTable d)
       (cout d ++ ["Recording Static Pose..."%string])).

End DriverErasure.

End IMUCalibrator.

(** * Properties *)

(** ** The clip and the two closures *)

Lemma clip_range (n lower upper : R) :
  lower <= upper -> lower <= clip n lower upper <= upper.
Proof.
  intros Hlu. unfold clip. split.
  - apply Rmax_l.
  - apply Rmax_lub; [exact Hlu | apply Rmin_r].
Qed.

Lemma clip_inside (n lower upper : R) :
  lower <= n <= upper -> clip n lower upper = n.
Proof.
  intros [Hl Hu]. unfold clip.
  rewrite (Rmin_left n upper Hu). apply Rmax_right. exact Hl.
Qed.

Lemma clip_le_arg (n upper : R) : 0 <= n -> clip n 0 upper <= n.
Proof.
  intros Hn. unfold clip.
  apply Rmax_lub; [exact Hn | apply Rmin_l].
Qed.

(** C7. Whatever the elapsed time and whatever the values of [Tds] and
    [Tss], the double support transition function and the scale factor of
    the single support CoP both lie in the interval [[0, 1]]. *)
Theorem transition_outputs_in_unit_interval (Tds Tss t : R) :
  0 <= reactionComponentTransition Tds t <= 1 /\
  0 <= copScale Tss t <= 1.
Proof.
  unfold reactionComponentTransition, copScale.
  split; apply clip_range; lra.
Qed.

Lemma transition_at_zero (Tds : R) : reactionComponentTransition Tds 0 = 1.
Proof.
  unfold reactionComponentTransition.
  replace (2 * 0 / Tds) with 0 by (unfold Rdiv; ring).
  replace (- 0 ^ 3) with 0 by ring.
  rewrite exp_0. apply clip_inside. lra.
Qed.

(** [exp (- y)] is below [/ y] for a positive [y]. *)
Lemma exp_neg_lt_inv (y : R) : 0 < y -> exp (- y) < / y.
Proof.
  intros Hy. rewrite exp_Ropp.
  apply Rinv_lt_contravar.
  - apply Rmult_lt_0_compat; [exact Hy | apply exp_pos].
  - pose proof (exp_ineq1 y) as H.
    assert (1 + y < exp y) by (apply H; lra).
    lra.
Qed.

(** The transition function is below any positive bound once the elapsed
    time is large enough, for a positive [Tds]. *)
Lemma transition_small (Tds eps : R) :
  0 < Tds -> 0 < eps ->
  forall t, Rmax (Tds / 2) (Tds / (2 * eps)) < t ->
            0 <= reactionComponentTransition Tds t < eps.
Proof.
  intros HT He t Ht.
  assert (H1 : Tds / 2 < t) by (eapply Rle_lt_trans; [apply Rmax_l | exact Ht]).
  assert (H2 : Tds / (2 * eps) < t)
    by (eapply Rle_lt_trans; [apply Rmax_r | exact Ht]).
  set (x := 2 * t / Tds).
  assert (Hx1 : 1 < x).
  { unfold x. apply (Rmult_lt_reg_r Tds); [exact HT |].
    unfold Rdiv. rewrite Rmult_assoc, Rinv_l by lra. lra. }
  assert (Hxe : / eps < x).
  { unfold x. apply (Rmult_lt_reg_r Tds); [exact HT |].
    unfold Rdiv. rewrite (Rmult_assoc (2 * t)), Rinv_l by lra.
    apply (Rmult_lt_reg_r (2 * eps)); [lra |].
    replace (/ eps * Tds * (2 * eps)) with (2 * Tds * (eps * / eps)) by ring.
    rewrite Rinv_r by lra.
    unfold Rdiv in H2.
    apply (Rmult_lt_compat_r (2 * eps)) in H2; [| lra].
    rewrite Rmult_assoc, Rinv_l in H2 by lra.
    nra. }
  assert (Hcube : x <= x ^ 3) by (simpl; nra).
  assert (Hpos : 0 < x ^ 3) by lra.
  assert (Hexp : exp (- x ^ 3) < eps).
  { eapply Rlt_trans; [apply exp_neg_lt_inv; exact Hpos |].
    apply Rle_lt_trans with (/ x).
    - apply Rinv_le_contravar; lra.
    - rewrite <- (Rinv_inv eps). apply Rinv_lt_contravar.
      + apply Rmult_lt_0_compat; [apply Rinv_0_lt_compat; lra | lra].
      + exact Hxe. }
  unfold reactionComponentTransition. fold x.
  split.
  - apply clip_range. lra.
  - eapply Rle_lt_trans; [apply clip_le_arg; left; apply exp_pos | exact Hexp].
Qed.

Lemma Rabs_mult_small (a f eps b : R) :
  0 < eps -> Rabs a < b -> 0 <= f < eps / b -> Rabs (a * f) < eps.
Proof.
  intros He Ha [Hf0 Hf].
  assert (Hb : 0 < b) by (pose proof (Rabs_pos a); lra).
  rewrite Rabs_mult, (Rabs_right f) by lra.
  apply Rle_lt_trans with (b * f).
  - apply Rmult_le_compat_r; lra.
  - apply (Rmult_lt_compat_l b) in Hf; [| exact Hb].
    replace (b * (eps / b)) with eps in Hf by (field; lra).
    exact Hf.
Qed.

(** C6. For a positive double support duration [Tds] the transition
    function is exactly 1 at elapsed time 0, so the trailing leg
    component is then exactly the value anchored at heel strike; and when
    the elapsed time grows without bound the transition function, and
    with it every axis of the trailing leg component, tends to 0. *)
Theorem transition_boundary (Tds : R) (HTds : 0 < Tds) :
  let f := reactionComponentTransition Tds in
  f 0 = 1 /\
  (forall atThs : Vec3, trailingComponent atThs f f f 0 = atThs) /\
  (forall eps, 0 < eps -> exists T, forall t, T < t -> Rabs (f t) < eps) /\
  (forall (atThs : Vec3) eps, 0 < eps ->
     exists T, forall t, T < t ->
       Rabs (vx (trailingComponent atThs f f f t)) < eps /\
       Rabs (vy (trailingComponent atThs f f f t)) < eps /\
       Rabs (vz (trailingComponent atThs f f f t)) < eps).
Proof.
  intros f. unfold f. repeat split.
  - apply transition_at_zero.
  - intros [x y z]. unfold trailingComponent. simpl.
    rewrite transition_at_zero. f_equal; ring.
  - intros eps He.
    exists (Rmax (Tds / 2) (Tds / (2 * eps))). intros t Ht.
    destruct (transition_small Tds eps HTds He t Ht) as [H0 H1].
    rewrite Rabs_right; lra.
  - intros atThs eps He.
    set (b := Rabs (vx atThs) + Rabs (vy atThs) + Rabs (vz atThs) + 1).
    assert (Hb : 0 < b).
    { unfold b. pose proof (Rabs_pos (vx atThs)).
      pose proof (Rabs_pos (vy atThs)). pose proof (Rabs_pos (vz atThs)). lra. }
    assert (He' : 0 < eps / b) by (apply Rdiv_lt_0_compat; assumption).
    exists (Rmax (Tds / 2) (Tds / (2 * (eps / b)))). intros t Ht.
    pose proof (transition_small Tds (eps / b) HTds He' t Ht) as Hf.
    pose proof (Rabs_pos (vx atThs)). pose proof (Rabs_pos (vy atThs)).
    pose proof (Rabs_pos (vz atThs)).
    unfold trailingComponent; simpl.
    repeat split; apply Rabs_mult_small with (b := b);
      try assumption; unfold b; lra.
Qed.

(** The theorem at the duration 1. *)
Lemma transition_boundary_witness :
  0 < 1 /\
  reactionComponentTransition 1 0 = 1 /\
  (forall eps, 0 < eps ->
     exists T, forall t, T < t -> Rabs (reactionComponentTransition 1 t) < eps).
Proof.
  split; [exact Rlt_0_1 |].
  destruct (transition_boundary 1 Rlt_0_1) as [H0 [_ [Hlim _]]].
  split; [exact H0 | exact Hlim].
Defined.

(** ** Method selection *)

Lemma found_In (v : list string) (x : string) : found v x = true <-> In x v.
Proof.
  unfold found. rewrite existsb_exists. split.
  - intros [y [Hin Heq]]. apply String.eqb_eq in Heq. subst. exact Hin.
  - intros Hin. exists x. split; [exact Hin | apply String.eqb_refl].
Qed.

Lemma caseless_eq_toLower (a b : string) :
  caseless_eq a b <-> toLower a = toLower b.
Proof.
  revert b. induction a as [| x a IH]; intros [| y b]; simpl.
  - tauto.
  - split; [tauto | discriminate].
  - split; [tauto | discriminate].
  - rewrite IH. split.
    + intros [Hc Hs]. now rewrite Hc, Hs.
    + intros H. injection H as Hc Hs. now split.
Qed.

(** The names of the two lists are written in lower case. *)
Lemma valid_names_lower (n : string) :
  In n (validNENames ++ validIDNames) -> toLower n = n.
Proof.
  simpl. intros H.
  repeat (destruct H as [H | H]; [subst; reflexivity |]).
  contradiction.
Qed.

Lemma found_caseless (v : list string) (s : string) :
  (forall n, In n v -> toLower n = n) ->
  found v (toLower s) = true <-> exists n, In n v /\ caseless_eq s n.
Proof.
  intros Hv. rewrite found_In. split.
  - intros Hin. exists (toLower s). split; [exact Hin |].
    apply caseless_eq_toLower. symmetry. apply Hv. exact Hin.
  - intros [n [Hin Hc]]. apply caseless_eq_toLower in Hc.
    rewrite Hc, (Hv n Hin). exact Hin.
Qed.

Lemma found_NE_caseless (s : string) :
  found validNENames (toLower s) = true <->
  exists n, In n validNENames /\ caseless_eq s n.
Proof.
  apply found_caseless. intros n Hn.
  apply valid_names_lower, in_or_app. now left.
Qed.

Lemma found_ID_caseless (s : string) :
  found validIDNames (toLower s) = true <->
  exists n, In n validIDNames /\ caseless_eq s n.
Proof.
  apply found_caseless. intros n Hn.
  apply valid_names_lower, in_or_app. now right.
Qed.

(** No name is in both lists. *)
Lemma valid_names_disjoint (x : string) :
  found validIDNames x = true -> found validNENames x = false.
Proof.
  rewrite found_In. simpl. intros H.
  repeat (destruct H as [H | H]; [subst; reflexivity |]).
  contradiction.
Qed.

(** [selectMethod] in terms of the two lists of the code. *)
Lemma selectMethod_by_lists (methodName : string) :
  (selectMethod methodName = Return NewtonEuler <->
   exists n, In n validNENames /\ caseless_eq methodName n) /\
  (selectMethod methodName = Return InverseDynamics <->
   exists n, In n validIDNames /\ caseless_eq methodName n) /\
  ((~ exists n, In n (validNENames ++ validIDNames) /\
                caseless_eq methodName n) ->
   selectMethod methodName =
     Thrown "Wrong input method. Select appropriate input name.").
Proof.
  pose proof (found_NE_caseless methodName) as HNE.
  pose proof (found_ID_caseless methodName) as HID.
  pose proof (valid_names_disjoint (toLower methodName)) as Hdis.
  unfold selectMethod.
  destruct (found validNENames (toLower methodName)) eqn:ENE;
    destruct (found validIDNames (toLower methodName)) eqn:EID.
  - specialize (Hdis eq_refl). discriminate.
  - repeat split; try tauto; try discriminate.
    + intros Hex. apply HID in Hex. discriminate.
    + intros Hno. exfalso. apply Hno.
      destruct (proj1 HNE eq_refl) as [n [Hin Hc]].
      exists n. split; [apply in_or_app; now left | exact Hc].
  - repeat split; try tauto; try discriminate.
    + intros Hex. apply HNE in Hex. discriminate.
    + intros Hno. exfalso. apply Hno.
      destruct (proj1 HID eq_refl) as [n [Hin Hc]].
      exists n. split; [apply in_or_app; now right | exact Hc].
  - repeat split; try discriminate.
    + intros Hex. apply HNE in Hex. discriminate.
    + intros Hex. apply HID in Hex. discriminate.
Qed.

(** C9. [selectMethod] returns the Newton-Euler method exactly for the
    names that are, up to case, one of newtoneuler, newton-euler,
    newton_euler, ne; it returns the Inverse-Dynamics method exactly for
    the names that are, up to case, one of inversedynamics,
    inverse-dynamics, inverse_dynamics, id; for every other name it
    throws, and so never falls back on one of the two methods. *)
Theorem selectMethod_resolves (methodName : string) :
  (selectMethod methodName = Return NewtonEuler <->
   caseless_eq methodName "newtoneuler" \/
   caseless_eq methodName "newton-euler" \/
   caseless_eq methodName "newton_euler" \/
   caseless_eq methodName "ne") /\
  (selectMethod methodName = Return InverseDynamics <->
   caseless_eq methodName "inversedynamics" \/
   caseless_eq methodName "inverse-dynamics" \/
   caseless_eq methodName "inverse_dynamics" \/
   caseless_eq methodName "id") /\
  (~ (caseless_eq methodName "newtoneuler" \/
      caseless_eq methodName "newton-euler" \/
      caseless_eq methodName "newton_euler" \/
      caseless_eq methodName "ne" \/
      caseless_eq methodName "inversedynamics" \/
      caseless_eq methodName "inverse-dynamics" \/
      caseless_eq methodName "inverse_dynamics" \/
      caseless_eq methodName "id") ->
   selectMethod methodName =
     Thrown "Wrong input method. Select appropriate input name.").
Proof.
  destruct (selectMethod_by_lists methodName) as [HNE [HID Hno]].
  split; [| split].
  - rewrite HNE. unfold validNENames. split.
    + intros [n [Hin Hc]]. simpl in Hin.
      repeat (destruct Hin as [Hin | Hin]; [subst n; tauto |]).
      contradiction.
    + intros H.
      repeat (destruct H as [H | H];
              [eexists; split; [| exact H]; simpl; tauto |]).
      eexists; split; [| exact H]; simpl; tauto.
  - rewrite HID. unfold validIDNames. split.
    + intros [n [Hin Hc]]. simpl in Hin.
      repeat (destruct Hin as [Hin | Hin]; [subst n; tauto |]).
      contradiction.
    + intros H.
      repeat (destruct H as [H | H];
              [eexists; split; [| exact H]; simpl; tauto |]).
      eexists; split; [| exact H]; simpl; tauto.
  - intros Hnone. apply Hno. intros [n [Hin Hc]]. apply Hnone.
    unfold validNENames, validIDNames in Hin. simpl in Hin.
    repeat (destruct Hin as [Hin | Hin]; [subst n; tauto |]).
    contradiction.
Qed.

(** The theorem at the names [NE] and [Inverse_Dynamics]. *)
Lemma selectMethod_resolves_witness :
  selectMethod "NE" = Return NewtonEuler /\
  selectMethod "Inverse_Dynamics" = Return InverseDynamics.
Proof.
  split.
  - apply (proj2 (proj1 (selectMethod_resolves "NE"))).
    right. right. right. simpl. repeat split.
  - apply (proj2 (proj1 (proj2 (selectMethod_resolves "Inverse_Dynamics")))).
    right. right. left. simpl. repeat split.
Defined.

(** The parsing examples of the specification. *)
Example selectMethod_examples :
  selectMethod "Newton-Euler" = Return NewtonEuler /\
  selectMethod "NE" = Return NewtonEuler /\
  selectMethod "id" = Return InverseDynamics /\
  selectMethod "Inverse_Dynamics" = Return InverseDynamics /\
  selectMethod "bogus" =
    Thrown "Wrong input method. Select appropriate input name." /\
  selectMethod "" =
    Thrown "Wrong input method. Select appropriate input name.".
Proof. repeat split. Qed.

(** ** Vector algebra *)



(** ** The splitter and the CoP estimator *)

Section Components.

Context `{M : ModelInterface}.

Variables (det : Detector) (time : R) (total atThs : Vec3).
Variables (fa fv fl : TransitionFuction) (r0 l0 : Vec3).


(** In double support the trailing leg has the trailing component. *)
Lemma split_double_support_trailing :
  getPhase det = GaitPhase.DOUBLE_SUPPORT ->
  let split := seperateReactionComponents det time total atThs fa fv fl r0 l0 in
  (getLeadingLeg det = LeadingLeg.RIGHT ->
   snd (fst split) = trailingComponent atThs fa fv fl time) /\
  (getLeadingLeg det = LeadingLeg.LEFT ->
   fst (fst split) = trailingComponent atThs fa fv fl time).
Proof.
  intros Hp. unfold seperateReactionComponents. rewrite Hp.
  split; intros Hl; rewrite Hl; reflexivity.
Qed.

(** In double support with no leg that leads, nothing is assigned and
    one line is written. *)
Lemma split_invalid_leading_leg :
  getPhase det = GaitPhase.DOUBLE_SUPPORT ->
  getLeadingLeg det = LeadingLeg.INVALID ->
  seperateReactionComponents det time total atThs fa fv fl r0 l0 =
    (r0, l0, ["STA: invalid LeadingLeg state!"%string]).
Proof.
  intros Hp Hl. unfold seperateReactionComponents.
  rewrite Hp, Hl. reflexivity.
Qed.

Lemma split_left_swing :
  getPhase det = GaitPhase.LEFT_SWING ->
  seperateReactionComponents det time total atThs fa fv fl r0 l0 =
    (total, Vec3_0, []).
Proof.
  intros Hp. unfold seperateReactionComponents. now rewrite Hp.
Qed.

Lemma split_right_swing :
  getPhase det = GaitPhase.RIGHT_SWING ->
  seperateReactionComponents det time total atThs fa fv fl r0 l0 =
    (Vec3_0, total, []).
Proof.
  intros Hp. unfold seperateReactionComponents. now rewrite Hp.
Qed.

End Components.

(** ** solve *)

Section Solve.

Context `{M : ModelInterface}.

Variables (eng : Engine) (det : Detector) (uninit : Locals) (input : Input).

(** The CoP of the two legs in double support with a leg that leads. *)
Lemma solve_double_support_points :
  isDetectorReady det = true ->
  getPhase det = GaitPhase.DOUBLE_SUPPORT ->
  let out := output (solve eng det uninit input) in
  let p := parameters eng in
  let st := realizedState eng input in
  (getLeadingLeg det = LeadingLeg.RIGHT ->
   point (right out) = getLocationInGround (heelStationR p) st /\
   point (left out) = getLocationInGround (toeStationL p) st) /\
  (getLeadingLeg det = LeadingLeg.LEFT ->
   point (left out) = getLocationInGround (heelStationL p) st /\
   point (right out) = getLocationInGround (toeStationR p) st).
Proof.
  intros Hr Hp. unfold solve, computeReactionPoint.
  rewrite Hr, Hp. simpl.
  split; intros Hl; rewrite Hl; simpl; split; reflexivity.
Qed.

(** With the detector ready, double support and no leg that leads, the
    six vectors of the output are the six locals as they were before
    any assignment, and three lines are written. *)
Lemma solve_invalid_leading_leg :
  isDetectorReady det = true ->
  getPhase det = GaitPhase.DOUBLE_SUPPORT ->
  getLeadingLeg det = LeadingLeg.INVALID ->
  output (solve eng det uninit input) =
    mkOutput (in_t input)
      (mkWrench (rightReactionForce0 uninit)
                (rightReactionMoment0 uninit) (rightPoint0 uninit))
      (mkWrench (leftReactionForce0 uninit)
                (leftReactionMoment0 uninit) (leftPoint0 uninit)) /\
  cerr (solve eng det uninit input) =
    ["STA: invalid LeadingLeg state!"; "STA: invalid LeadingLeg state!";
     "CoP: invalid LeadingLeg state!"]%string.
Proof.
  intros Hr Hp Hl. unfold solve, computeReactionPoint.
  rewrite Hr. simpl.
  rewrite !split_invalid_leading_leg by assumption.
  rewrite Hp, Hl. simpl. split; reflexivity.
Qed.

End Solve.

(** ** The detector is not ready *)

(** C8. A call made while the detector is not ready returns the time
    stamp of the input and the zero vector for the force, the torque and
    the CoP of both legs. *)
Theorem solve_not_ready_output `{M : ModelInterface}
    (eng : Engine) (det : Detector) (uninit : Locals) (input : Input) :
  isDetectorReady det = false ->
  let out := output (solve eng det uninit input) in
  out_t out = in_t input /\
  force (right out) = Vec3_0 /\ torque (right out) = Vec3_0 /\
  point (right out) = Vec3_0 /\
  force (left out) = Vec3_0 /\ torque (left out) = Vec3_0 /\
  point (left out) = Vec3_0.
Proof.
  intros Hr. unfold solve. rewrite Hr. simpl. repeat split.
Qed.

(** The theorem at a call on the slider with locals that are not zero. *)
Lemma solve_not_ready_output_witness :
  let out :=
    output (solve Slider.engine0
              (Slider.detector false GaitPhase.LEFT_SWING LeadingLeg.RIGHT)
              Slider.uninit1 Slider.input0) in
  out_t out = 2 /\ force (right out) = Vec3_0 /\ point (left out) = Vec3_0.
Proof.
  destruct (solve_not_ready_output Slider.engine0
              (Slider.detector false GaitPhase.LEFT_SWING LeadingLeg.RIGHT)
              Slider.uninit1 Slider.input0 eq_refl)
    as [Ht [Hf [_ [_ [_ [_ Hp]]]]]].
  split; [exact Ht | split; [exact Hf | exact Hp]].
Defined.

(** C10. A call made while the detector is not ready changes no member of
    the engine: the model state, the gait direction buffer, the two
    heel-strike anchors, [Tds] and [Tss] are after the call what they were
    before it (and nothing is written on [cerr]). *)
Theorem solve_not_ready_frame `{M : ModelInterface}
    (eng : Engine) (det : Detector) (uninit : Locals) (input : Input) :
  isDetectorReady det = false ->
  let eng' := engine (solve eng det uninit input) in
  eng' = eng /\
  state eng' = state eng /\
  gaitDirectionBuffer eng' = gaitDirectionBuffer eng /\
  totalForceAtThs eng' = totalForceAtThs eng /\
  totalMomentAtThs eng' = totalMomentAtThs eng /\
  Tds eng' = Tds eng /\ Tss eng' = Tss eng /\
  cerr (solve eng det uninit input) = [].
Proof.
  intros Hr. unfold solve. rewrite Hr. simpl. repeat split.
Qed.

(** The theorem at a call on the slider whose sample would move the
    body, in double support at the instant of heel strike. *)
Lemma solve_not_ready_frame_witness :
  engine (solve Slider.engine0
            (mkDetector false GaitPhase.DOUBLE_SUPPORT LeadingLeg.LEFT 2 1 5 7)
            Slider.uninit1
            (@mkInput Slider.model 2 Slider.ones Slider.ones Slider.ones))
  = Slider.engine0.
Proof.
  exact (proj1 (solve_not_ready_frame Slider.engine0
                  (mkDetector false GaitPhase.DOUBLE_SUPPORT LeadingLeg.LEFT
                     2 1 5 7)
                  Slider.uninit1
                  (@mkInput Slider.model 2 Slider.ones Slider.ones Slider.ones)
                  eq_refl)).
Defined.

(** A call made while the detector is ready does change the engine: the
    frame property is one of the calls that are skipped. *)
Example solve_ready_changes_engine :
  Tds (engine (solve Slider.engine0
                 (mkDetector true GaitPhase.DOUBLE_SUPPORT LeadingLeg.LEFT
                    2 1 5 7)
                 Slider.uninit1 Slider.input0)) = 5.
Proof. reflexivity. Qed.

(** ** Double support *)



(** The same with everyday values: a total of one tenth, an anchor of 1
    and a transition function at one half give the sum
    [0x1.9999999999998p-4], two units in the last place below the total
    [0x1.999999999999ap-4]. *)
Example split_sum_exact_fails_on_a_tenth :
  ~ B64.split_sum_exact
      (Slider.detector true GaitPhase.DOUBLE_SUPPORT LeadingLeg.LEFT)
      PrimFloat.one B64.tenth_total B64.unit_anchor
      B64.transition_half B64.transition_half B64.transition_half
      B64.Vec3_0 B64.Vec3_0.
Proof.
  intros H. specialize (H eq_refl (or_intror eq_refl)). cbv zeta in H.
  apply (f_equal (fun v => PrimFloat.eqb (B64.b_x v)
                             (B64.b_x B64.tenth_total))) in H.
  vm_compute in H. discriminate H.
Qed.



(** On the slider the heel station of a foot and its toe station are one
    unit apart in the ground frame. *)
Lemma slider_heel_is_not_toe (st : @State Slider.model) :
  @getLocationInGround Slider.model (heelStationR Slider.params) st <>
  @getLocationInGround Slider.model (toeStationR Slider.params) st.
Proof.
  intros H. apply (f_equal vx) in H.
  cbv [getLocationInGround transform_point mat_vec dot vadd vx vy vz
       getBodyTransform getBody getMobilizedBodyIndex Slider.model Slider.body
       X_R X_p row0 Mat33_id heelStationR toeStationR station_location
       station_body Slider.params rHeelStationLocation rToeStationLocation
       rStationBodyName Vec3_0] in H.
  lra.
Qed.

(** The rule that gives the toe to the leading leg fails on the slider:
    with the right leg leading, the CoP of the right leg is its heel
    station, one unit behind its toe station. *)
Lemma cop_leading_toe_counterexample :
  ~ cop_leading_toe_trailing_heel Slider.engine0
      (Slider.detector true GaitPhase.DOUBLE_SUPPORT LeadingLeg.RIGHT)
      Slider.uninit1 Slider.input0.
Proof.
  intros H.
  destruct (H eq_refl eq_refl) as [HR _].
  destruct (HR eq_refl) as [Htoe _].
  destruct (solve_double_support_points Slider.engine0
              (Slider.detector true GaitPhase.DOUBLE_SUPPORT LeadingLeg.RIGHT)
              Slider.uninit1 Slider.input0 eq_refl eq_refl) as [HR' _].
  destruct (HR' eq_refl) as [Hheel _].
  rewrite Hheel in Htoe.
  exact (slider_heel_is_not_toe _ Htoe).
Qed.

(** C2, as the code has it. In a call in double support with a leg that
    leads, the CoP of the leading leg is the heel station of that leg and
    the CoP of the trailing leg is the toe station of that leg, each
    located in the ground frame by the transform that the body of the
    station has in the realized state, applied to the offset of the
    parameters. *)
Theorem double_support_cop `{M : ModelInterface}
    (eng : Engine) (det : Detector) (uninit : Locals) (input : Input) :
  isDetectorReady det = true ->
  getPhase det = GaitPhase.DOUBLE_SUPPORT ->
  let out := output (solve eng det uninit input) in
  let p := parameters eng in
  let st := realizedState eng input in
  let ground (bodyName : string) (offset : Vec3) :=
    transform_point
      (getBodyTransform st (getMobilizedBodyIndex (getBody bodyName))) offset in
  (getLeadingLeg det = LeadingLeg.RIGHT ->
   point (right out) = ground (rStationBodyName p) (rHeelStationLocation p) /\
   point (left out) = ground (lStationBodyName p) (lToeStationLocation p)) /\
  (getLeadingLeg det = LeadingLeg.LEFT ->
   point (left out) = ground (lStationBodyName p) (lHeelStationLocation p) /\
   point (right out) = ground (rStationBodyName p) (rToeStationLocation p)).
Proof.
  intros Hr Hp.
  exact (solve_double_support_points eng det uninit input Hr Hp).
Qed.

(** The theorem at a call on the slider with the right leg leading: the
    right CoP is at the origin, the left CoP one unit ahead. *)
Lemma double_support_cop_witness :
  let out :=
    output (solve Slider.engine0
              (Slider.detector true GaitPhase.DOUBLE_SUPPORT LeadingLeg.RIGHT)
              Slider.uninit1 Slider.input0) in
  point (right out) =
    transform_point (mkTransform Mat33_id Vec3_0) Vec3_0 /\
  point (left out) =
    transform_point (mkTransform Mat33_id Vec3_0) (mkVec3 1 0 0).
Proof.
  exact (proj1 (double_support_cop Slider.engine0
                  (Slider.detector true GaitPhase.DOUBLE_SUPPORT
                     LeadingLeg.RIGHT)
                  Slider.uninit1 Slider.input0 eq_refl eq_refl) eq_refl).
Defined.

(** C3, at a call that shows the defect. The detector is ready, the phase
    is double support and no leg leads. The call returns and writes three
    lines on [cerr], but the six vectors of the output are not zero: they
    are the locals of [solve] that no branch has assigned, here filled
    with ones. *)
Theorem solve_invalid_leading_leg_output :
  let r :=
    solve Slider.engine0
      (Slider.detector true GaitPhase.DOUBLE_SUPPORT LeadingLeg.INVALID)
      Slider.uninit1 Slider.input0 in
  output r = mkOutput 2 (mkWrench Slider.ones Slider.ones Slider.ones)
                        (mkWrench Slider.ones Slider.ones Slider.ones) /\
  force (right (output r)) <> Vec3_0 /\
  point (left (output r)) <> Vec3_0 /\
  cerr r = ["STA: invalid LeadingLeg state!"; "STA: invalid LeadingLeg state!";
            "CoP: invalid LeadingLeg state!"]%string.
Proof.
  destruct (solve_invalid_leading_leg Slider.engine0
              (Slider.detector true GaitPhase.DOUBLE_SUPPORT LeadingLeg.INVALID)
              Slider.uninit1 Slider.input0 eq_refl eq_refl eq_refl)
    as [Hout Herr].
  cbv zeta. rewrite Hout, Herr. simpl.
  repeat split; intros H; apply (f_equal vx) in H; simpl in H; lra.
Qed.

(** ** Single support *)

(** C4. In a call in left swing the force and the torque of the right leg
    are the total reaction force and moment in the heading frame and the
    force and the torque of the left leg are the zero vector; in a call
    in right swing the same holds with the legs exchanged. *)
Theorem swing_split `{M : ModelInterface}
    (eng : Engine) (det : Detector) (uninit : Locals) (input : Input) :
  isDetectorReady det = true ->
  let out := output (solve eng det uninit input) in
  let total := rotatedTotalReaction eng input in
  (getPhase det = GaitPhase.LEFT_SWING ->
   force (right out) = fst total /\ torque (right out) = snd total /\
   force (left out) = Vec3_0 /\ torque (left out) = Vec3_0) /\
  (getPhase det = GaitPhase.RIGHT_SWING ->
   force (left out) = fst total /\ torque (left out) = snd total /\
   force (right out) = Vec3_0 /\ torque (right out) = Vec3_0).
Proof.
  intros Hr. unfold solve. rewrite Hr. simpl.
  split; intros Hp.
  - rewrite !split_left_swing by assumption. simpl. repeat split.
  - rewrite !split_right_swing by assumption. simpl. repeat split.
Qed.

(** The theorem at a call on the slider in left swing. *)
Lemma swing_split_witness :
  let out :=
    output (solve Slider.engine0
              (Slider.detector true GaitPhase.LEFT_SWING LeadingLeg.RIGHT)
              Slider.uninit1 Slider.input0) in
  force (right out) = fst (rotatedTotalReaction Slider.engine0 Slider.input0) /\
  torque (right out) = snd (rotatedTotalReaction Slider.engine0 Slider.input0) /\
  force (left out) = Vec3_0 /\ torque (left out) = Vec3_0.
Proof.
  exact (proj1 (swing_split Slider.engine0
                  (Slider.detector true GaitPhase.LEFT_SWING LeadingLeg.RIGHT)
                  Slider.uninit1 Slider.input0 eq_refl) eq_refl).
Defined.

(** C5. In a call in single support the CoP of the stance leg is its heel
    station in ground plus [scale * d], where [d] is its toe station in
    ground minus its heel station in ground, [t] is the time of the
    sample minus the time of the last toe off, [omega] is [2 PI / Tss]
    for the member [Tss] (the single support duration just read from the
    detector) and [scale] is the clip to [[0, 1]] of
    [-2 / (3 PI) * (sin (omega t) - sin (2 omega t) / 8 - 3 / 4 omega t)];
    the CoP of the leg in the air is the zero vector. *)
Theorem single_support_cop `{M : ModelInterface}
    (eng : Engine) (det : Detector) (uninit : Locals) (input : Input) :
  isDetectorReady det = true ->
  let r := solve eng det uninit input in
  let out := output r in
  let p := parameters eng in
  let st := realizedState eng input in
  let t := in_t input - getToeOffTime det in
  let omega := 2 * PI / Tss (engine r) in
  let scale :=
    clip (-2 / (3 * PI) *
          (sin (omega * t) - sin (2 * omega * t) / 8 - 3 / 4 * omega * t))
         0 1 in
  let stance (heel toe : Station) :=
    vadd (getLocationInGround heel st)
         (smul scale (vsub (getLocationInGround toe st)
                           (getLocationInGround heel st))) in
  Tss (engine r) = getSingleSupportDuration det /\
  (getPhase det = GaitPhase.LEFT_SWING ->
   point (right out) = stance (heelStationR p) (toeStationR p) /\
   point (left out) = Vec3_0) /\
  (getPhase det = GaitPhase.RIGHT_SWING ->
   point (left out) = stance (heelStationL p) (toeStationL p) /\
   point (right out) = Vec3_0).
Proof.
  intros Hr. unfold solve, computeReactionPoint. rewrite Hr. simpl.
  split; [reflexivity |].
  split; intros Hp; rewrite Hp; simpl; split; reflexivity.
Qed.

(** The theorem at a call on the slider in right swing: the right leg is
    in the air. *)
Lemma single_support_cop_witness :
  let out :=
    output (solve Slider.engine0
              (Slider.detector true GaitPhase.RIGHT_SWING LeadingLeg.LEFT)
              Slider.uninit1 Slider.input0) in
  point (right out) = Vec3_0.
Proof.
  exact (proj2 (proj2 (proj2 (single_support_cop Slider.engine0
                  (Slider.detector true GaitPhase.RIGHT_SWING LeadingLeg.LEFT)
                  Slider.uninit1 Slider.input0 eq_refl)) eq_refl)).
Defined.

(** * More properties of GRFMPrediction.cpp *)

(** ** The shape of the double support transition *)

Lemma clip_monotone (a b lower upper : R) :
  a <= b -> clip a lower upper <= clip b lower upper.
Proof.
  intros Hab. unfold clip.
  apply Rle_max_compat_l. apply Rle_min_compat_r. exact Hab.
Qed.

Lemma cube_monotone (a b : R) : a <= b -> a ^ 3 <= b ^ 3.
Proof.
  intros Hab.
  assert (Hq : 0 <= a * a + a * b + b * b) by nra.
  assert (Hp : 0 <= (b - a) * (a * a + a * b + b * b))
    by (apply Rmult_le_pos; lra).
  simpl. nra.
Qed.

Lemma exp_monotone (a b : R) : a <= b -> exp a <= exp b.
Proof.
  intros [Hlt | Heq].
  - left. apply exp_increasing. exact Hlt.
  - subst. right. reflexivity.
Qed.

Lemma ratio_monotone (Tds t1 t2 : R) :
  0 < Tds -> t1 <= t2 -> 2 * t1 / Tds <= 2 * t2 / Tds.
Proof.
  intros HT Ht. unfold Rdiv.
  apply Rmult_le_compat_r; [left; apply Rinv_0_lt_compat; exact HT | lra].
Qed.

(** X1. For a positive [Tds] the transition function never grows with
    the elapsed time: a later sample gives the trailing leg a share that
    is at most the share of an earlier one. *)
Theorem transition_decreasing (Tds t1 t2 : R) :
  0 < Tds -> t1 <= t2 ->
  reactionComponentTransition Tds t2 <= reactionComponentTransition Tds t1.
Proof.
  intros HT Ht. unfold reactionComponentTransition.
  apply clip_monotone, exp_monotone.
  apply Ropp_le_contravar, cube_monotone, ratio_monotone; assumption.
Qed.

Lemma transition_decreasing_witness :
  reactionComponentTransition 1 2 <= reactionComponentTransition 1 (1 / 2).
Proof.
  apply (transition_decreasing 1 (1 / 2) 2); lra.
Defined.

(** X2. The clip is at work when the elapsed time and [Tds] have
    opposite signs (a sample before the heel strike, or a negative
    estimate of [Tds]): the transition function is then exactly 1.
    After the heel strike, for a positive [Tds], the clip is idle: the
    function is [exp (- (2 t / Tds) ^ 3)], a value from 0 to 1, the two
    bounds included. *)
Theorem transition_saturation (Tds t : R) :
  ((0 < Tds /\ t <= 0) \/ (Tds < 0 /\ 0 <= t) ->
   reactionComponentTransition Tds t = 1) /\
  (0 < Tds /\ 0 < t ->
   reactionComponentTransition Tds t = exp (- (2 * t / Tds) ^ 3) /\
   0 <= reactionComponentTransition Tds t <= 1).
Proof.
  unfold reactionComponentTransition. split.
  - intros H.
    assert (Hx : 2 * t / Tds <= 0).
    { unfold Rdiv. destruct H as [[HT Ht] | [HT Ht]].
      - assert (0 < / Tds) by (apply Rinv_0_lt_compat; exact HT). nra.
      - assert (/ Tds < 0) by (apply Rinv_lt_0_compat; exact HT). nra. }
    assert (Hc : (2 * t / Tds) ^ 3 <= 0).
    { pose proof (cube_monotone _ _ Hx) as Hc.
      replace (0 ^ 3) with 0 in Hc by ring. exact Hc. }
    assert (He : 1 <= exp (- (2 * t / Tds) ^ 3)).
    { rewrite <- exp_0. apply exp_monotone. lra. }
    unfold clip. rewrite Rmin_right by exact He.
    apply Rmax_right. lra.
  - intros [HT Ht].
    assert (Hx : 0 < 2 * t / Tds).
    { unfold Rdiv. apply Rmult_lt_0_compat; [lra |].
      apply Rinv_0_lt_compat; exact HT. }
    assert (Hc : 0 < (2 * t / Tds) ^ 3) by (apply pow_lt; exact Hx).
    assert (He : exp (- (2 * t / Tds) ^ 3) < 1).
    { rewrite <- exp_0. apply exp_increasing. lra. }
    pose proof (exp_pos (- (2 * t / Tds) ^ 3)) as Hp.
    rewrite clip_inside by lra.
    split; [reflexivity | lra].
Qed.

Lemma transition_saturation_witness :
  reactionComponentTransition (-1) 3 = 1 /\
  0 <= reactionComponentTransition 1 3 <= 1.
Proof.
  split.
  - apply (proj1 (transition_saturation (-1) 3)). right. lra.
  - apply (proj2 (transition_saturation 1 3)). lra.
Defined.

(** X3. The transition function depends on the elapsed time and on [Tds]
    through their ratio only: the same factor on both changes nothing.
    One full double support duration after the heel strike the share of
    the trailing leg is [exp (-8)], whatever the duration. *)
Theorem transition_ratio (Tds t k : R) :
  Tds <> 0 -> k <> 0 ->
  reactionComponentTransition (k * Tds) (k * t) =
    reactionComponentTransition Tds t /\
  reactionComponentTransition Tds Tds = exp (-8).
Proof.
  intros HT Hk. unfold reactionComponentTransition. split.
  - replace (2 * (k * t) / (k * Tds)) with (2 * t / Tds) by (field; tauto).
    reflexivity.
  - replace (2 * Tds / Tds) with 2 by (field; exact HT).
    replace (- 2 ^ 3) with (-8) by ring.
    apply clip_inside.
    pose proof (exp_pos (-8)).
    assert (exp (-8) < exp 0) by (apply exp_increasing; lra).
    rewrite exp_0 in *. lra.
Qed.

Lemma transition_ratio_witness :
  reactionComponentTransition (1 / 5) (1 / 5) = exp (-8).
Proof.
  assert (H5 : 1 / 5 <> 0) by lra.
  exact (proj2 (transition_ratio (1 / 5) 0 1 H5 R1_neq_R0)).
Defined.

(** ** The shape of the CoP progress *)

Lemma copScale_copProgress (Tss t : R) :
  copScale Tss t = clip (copProgress Tss t) 0 1.
Proof. reflexivity. Qed.

Lemma copProgress_copShape (Tss t : R) :
  copProgress Tss t = -2 / (3 * PI) * copShape (2 * PI / Tss * t).
Proof.
  unfold copProgress, copShape. cbv zeta.
  replace (2 * (2 * PI / Tss) * t) with (2 * (2 * PI / Tss * t)) by ring.
  replace (3 / 4 * (2 * PI / Tss) * t) with (3 / 4 * (2 * PI / Tss * t))
    by ring.
  reflexivity.
Qed.

Lemma derivable_pt_lim_pointwise (f g : R -> R) (x l : R) :
  (forall y, f y = g y) -> derivable_pt_lim f x l -> derivable_pt_lim g x l.
Proof.
  intros Heq Hf eps Heps. destruct (Hf eps Heps) as [delta Hd].
  exists delta. intros k Hk Hkd. rewrite <- !Heq. apply Hd; assumption.
Qed.

Lemma copShape_derivative (x : R) :
  derivable_pt_lim copShape x (cos x - cos (2 * x) / 4 - 3 / 4).
Proof.
  replace (cos x - cos (2 * x) / 4 - 3 / 4)
    with (cos x - / 8 * (cos (2 * x) * (2 * 1)) - 3 / 4 * 1) by field.
  apply (derivable_pt_lim_pointwise
           (sin - mult_real_fct (/ 8) (comp sin (mult_real_fct 2 id))
            - mult_real_fct (3 / 4) id)%F).
  - intros y. unfold copShape, minus_fct, mult_real_fct, comp, id. field.
  - apply derivable_pt_lim_minus.
    + apply derivable_pt_lim_minus.
      * apply derivable_pt_lim_sin.
      * apply derivable_pt_lim_scal.
        apply (derivable_pt_lim_comp (mult_real_fct 2 id) sin).
        -- apply derivable_pt_lim_scal. apply derivable_pt_lim_id.
        -- apply derivable_pt_lim_sin.
    + apply derivable_pt_lim_scal. apply derivable_pt_lim_id.
Qed.

Lemma copShape_derivable : derivable copShape.
Proof.
  intros x. exists (cos x - cos (2 * x) / 4 - 3 / 4).
  apply copShape_derivative.
Qed.

(** The derivative of the bracket is [- (1 - cos x)^2 / 2]: the bracket
    never grows. *)
Lemma copShape_decreasing : decreasing copShape.
Proof.
  apply (nonpos_derivative_1 copShape copShape_derivable).
  intros x.
  rewrite (derive_pt_eq_0 copShape x _ (copShape_derivable x)
             (copShape_derivative x)).
  rewrite cos_2a_cos.
  pose proof (COS_bound x). nra.
Qed.

Lemma copProgress_increasing (Tss t1 t2 : R) :
  0 < Tss -> t1 <= t2 -> copProgress Tss t1 <= copProgress Tss t2.
Proof.
  intros HT Ht. rewrite !copProgress_copShape.
  assert (Hw : 0 < 2 * PI / Tss).
  { unfold Rdiv. apply Rmult_lt_0_compat;
      [pose proof PI_RGT_0; lra | apply Rinv_0_lt_compat; exact HT]. }
  assert (Hx : 2 * PI / Tss * t1 <= 2 * PI / Tss * t2)
    by (apply Rmult_le_compat_l; lra).
  pose proof (copShape_decreasing _ _ Hx) as Hs.
  assert (Hc : -2 / (3 * PI) < 0).
  { unfold Rdiv. pose proof PI_RGT_0.
    assert (0 < / (3 * PI)) by (apply Rinv_0_lt_compat; lra). nra. }
  nra.
Qed.

Lemma copProgress_at_0 (Tss : R) : copProgress Tss 0 = 0.
Proof.
  unfold copProgress. cbv zeta.
  rewrite !Rmult_0_r, sin_0. unfold Rdiv. ring.
Qed.

(** X4. For a positive [Tss] the scale factor of [copPosition] never
    decreases with the elapsed time: during single support the CoP never
    moves back towards the heel. *)
Theorem copScale_increasing (Tss t1 t2 : R) :
  0 < Tss -> t1 <= t2 -> copScale Tss t1 <= copScale Tss t2.
Proof.
  intros HT Ht. rewrite !copScale_copProgress.
  apply clip_monotone, copProgress_increasing; assumption.
Qed.

Lemma copScale_increasing_witness : copScale 1 (1 / 4) <= copScale 1 (1 / 2).
Proof.
  apply (copScale_increasing 1 (1 / 4) (1 / 2)); lra.
Defined.


(** ** solve in single support *)

Lemma vadd_smul_0 (a d : Vec3) : vadd a (smul 0 d) = a.
Proof. destruct a, d. unfold vadd, smul. simpl. f_equal; ring. Qed.

Lemma vadd_smul_1_vsub (a b : Vec3) : vadd a (smul 1 (vsub b a)) = b.
Proof. destruct a, b. unfold vadd, smul, vsub. simpl. f_equal; ring. Qed.

Lemma vadd_smul_convex (a b : Vec3) (s : R) :
  vadd a (smul s (vsub b a)) = vadd (smul (1 - s) a) (smul s b).
Proof. destruct a, b. unfold vadd, smul, vsub. simpl. f_equal; ring. Qed.

Lemma solve_single_support_points `{M : ModelInterface}
    (eng : Engine) (det : Detector) (uninit : Locals) (input : Input) :
  isDetectorReady det = true ->
  let out := output (solve eng det uninit input) in
  let p := parameters eng in
  let st := realizedState eng input in
  let s := copScale (getSingleSupportDuration det)
             (in_t input - getToeOffTime det) in
  (getPhase det = GaitPhase.LEFT_SWING ->
   point (right out) =
     vadd (getLocationInGround (heelStationR p) st)
          (smul s (vsub (getLocationInGround (toeStationR p) st)
                        (getLocationInGround (heelStationR p) st))) /\
   point (left out) = Vec3_0) /\
  (getPhase det = GaitPhase.RIGHT_SWING ->
   point (left out) =
     vadd (getLocationInGround (heelStationL p) st)
          (smul s (vsub (getLocationInGround (toeStationL p) st)
                        (getLocationInGround (heelStationL p) st))) /\
   point (right out) = Vec3_0).
Proof.
  intros Hr. unfold solve, computeReactionPoint. rewrite Hr. simpl.
  split; intros Hp; rewrite Hp; simpl; split; reflexivity.
Qed.

(** X6. In single support, with a single support duration that is not
    zero, the CoP of the stance leg is exactly its heel station in the
    call whose sample is at the instant of the toe off: the progress
    along the foot starts from 0. *)
Theorem single_support_cop_at_toe_off `{M : ModelInterface}
    (eng : Engine) (det : Detector) (uninit : Locals) (input : Input) :
  isDetectorReady det = true ->
  getSingleSupportDuration det <> 0 ->
  in_t input - getToeOffTime det = 0 ->
  let out := output (solve eng det uninit input) in
  let p := parameters eng in
  let st := realizedState eng input in
  (getPhase det = GaitPhase.LEFT_SWING ->
   point (right out) = getLocationInGround (heelStationR p) st) /\
  (getPhase det = GaitPhase.RIGHT_SWING ->
   point (left out) = getLocationInGround (heelStationL p) st).
Proof.
  intros Hr HT H0.
  destruct (solve_single_support_points eng det uninit input Hr) as [HL HR].
  cbv zeta.
  split; intros Hp; [destruct (HL Hp) as [Hpt _] | destruct (HR Hp) as [Hpt _]];
    rewrite Hpt, H0, copScale_copProgress, copProgress_at_0;
    rewrite clip_inside by lra; apply vadd_smul_0.
Qed.

(** The slider in left swing, in the call at the toe off of time 2. *)
Lemma single_support_cop_at_toe_off_witness :
  point (right (output
    (solve Slider.engine0
       (mkDetector true GaitPhase.LEFT_SWING LeadingLeg.RIGHT 1 2 1 1)
       Slider.uninit1 Slider.input0))) =
  @getLocationInGround Slider.model (heelStationR Slider.params)
    (realizedState Slider.engine0 Slider.input0).
Proof.
  assert (H0 : in_t Slider.input0 -
               getToeOffTime
                 (mkDetector true GaitPhase.LEFT_SWING LeadingLeg.RIGHT
                    1 2 1 1) = 0) by (simpl; lra).
  exact (proj1 (single_support_cop_at_toe_off Slider.engine0
                  (mkDetector true GaitPhase.LEFT_SWING LeadingLeg.RIGHT
                     1 2 1 1)
                  Slider.uninit1 Slider.input0 eq_refl R1_neq_R0 H0) eq_refl).
Defined.

(** X7. In single support the CoP of the stance leg is a point of the
    segment from its heel station to its toe station: it is
    [(1 - s) heel + s toe] for some [s] between 0 and 1. *)
Theorem single_support_cop_on_segment `{M : ModelInterface}
    (eng : Engine) (det : Detector) (uninit : Locals) (input : Input) :
  isDetectorReady det = true ->
  let out := output (solve eng det uninit input) in
  let p := parameters eng in
  let st := realizedState eng input in
  (getPhase det = GaitPhase.LEFT_SWING ->
   exists s, 0 <= s <= 1 /\
     point (right out) =
       vadd (smul (1 - s) (getLocationInGround (heelStationR p) st))
            (smul s (getLocationInGround (toeStationR p) st))) /\
  (getPhase det = GaitPhase.RIGHT_SWING ->
   exists s, 0 <= s <= 1 /\
     point (left out) =
       vadd (smul (1 - s) (getLocationInGround (heelStationL p) st))
            (smul s (getLocationInGround (toeStationL p) st))).
Proof.
  intros Hr.
  destruct (solve_single_support_points eng det uninit input Hr) as [HL HR].
  cbv zeta.
  split; intros Hp; [destruct (HL Hp) as [Hpt _] | destruct (HR Hp) as [Hpt _]];
    exists (copScale (getSingleSupportDuration det)
              (in_t input - getToeOffTime det));
    (split; [apply clip_range; lra | rewrite Hpt; apply vadd_smul_convex]).
Qed.

Lemma single_support_cop_on_segment_witness :
  exists s, 0 <= s <= 1 /\
    point (left (output
      (solve Slider.engine0
         (Slider.detector true GaitPhase.RIGHT_SWING LeadingLeg.LEFT)
         Slider.uninit1 Slider.input0))) =
    vadd (smul (1 - s)
            (@getLocationInGround Slider.model (heelStationL Slider.params)
               (realizedState Slider.engine0 Slider.input0)))
         (smul s
            (@getLocationInGround Slider.model (toeStationL Slider.params)
               (realizedState Slider.engine0 Slider.input0))).
Proof.
  exact (proj2 (single_support_cop_on_segment Slider.engine0
                  (Slider.detector true GaitPhase.RIGHT_SWING LeadingLeg.LEFT)
                  Slider.uninit1 Slider.input0 eq_refl) eq_refl).
Defined.

(** ** solve in double support and the anchors *)

Lemma trailing_at_zero (Tds : R) (v : Vec3) :
  trailingComponent v (reactionComponentTransition Tds)
    (reactionComponentTransition Tds) (reactionComponentTransition Tds) 0 = v.
Proof.
  destruct v. unfold trailingComponent. simpl.
  rewrite transition_at_zero. f_equal; ring.
Qed.

Lemma vsub_self (v : Vec3) : vsub v v = Vec3_0.
Proof. destruct v. unfold vsub, Vec3_0. simpl. f_equal; ring. Qed.

(** X8. The call that sees the heel strike (elapsed time exactly 0)
    stores the total reaction force and moment of the heading frame as
    the new anchors; in double support with a leg that leads and a double
    support duration that is not zero it gives the whole total, force and
    moment, to the trailing leg and the zero vector to the leading
    leg. *)
Theorem solve_at_heel_strike `{M : ModelInterface}
    (eng : Engine) (det : Detector) (uninit : Locals) (input : Input) :
  isDetectorReady det = true ->
  in_t input - getHeelStrikeTime det = 0 ->
  let r := solve eng det uninit input in
  let total := rotatedTotalReaction eng input in
  totalForceAtThs (engine r) = fst total /\
  totalMomentAtThs (engine r) = snd total /\
  (getPhase det = GaitPhase.DOUBLE_SUPPORT ->
   getDoubleSupportDuration det <> 0 ->
   (getLeadingLeg det = LeadingLeg.RIGHT ->
    left (output r) = mkWrench (fst total) (snd total) (point (left (output r)))
    /\ force (right (output r)) = Vec3_0
    /\ torque (right (output r)) = Vec3_0) /\
   (getLeadingLeg det = LeadingLeg.LEFT ->
    right (output r) =
      mkWrench (fst total) (snd total) (point (right (output r)))
    /\ force (left (output r)) = Vec3_0
    /\ torque (left (output r)) = Vec3_0)).
Proof.
  intros Hr Ht. unfold solve. rewrite Hr, Ht.
  destruct (Req_dec_T 0 0) as [_ | Hne]; [| contradiction].
  cbn [engine output totalForceAtThs totalMomentAtThs fst snd].
  split; [reflexivity | split; [reflexivity |]].
  intros Hp HTds. unfold seperateReactionComponents. rewrite Hp.
  split; intros Hl; rewrite Hl; cbn [fst snd left right force torque point];
    rewrite !trailing_at_zero, !vsub_self; repeat split.
Qed.

(** The slider in the call that sees the heel strike, the left leg
    leading: the right leg trails and has the whole force. *)
Lemma solve_at_heel_strike_witness :
  force (right (output
    (solve Slider.engine0 (Slider.detector_at_heel_strike LeadingLeg.LEFT)
       Slider.uninit1 Slider.input0))) =
  fst (rotatedTotalReaction Slider.engine0 Slider.input0).
Proof.
  assert (H0 : in_t Slider.input0 -
               getHeelStrikeTime
                 (Slider.detector_at_heel_strike LeadingLeg.LEFT) = 0)
    by (simpl; lra).
  destruct (solve_at_heel_strike Slider.engine0
              (Slider.detector_at_heel_strike LeadingLeg.LEFT)
              Slider.uninit1 Slider.input0 eq_refl H0) as [_ [_ Hds]].
  destruct (proj2 (Hds eq_refl R1_neq_R0) eq_refl) as [Hw _].
  rewrite Hw. reflexivity.
Defined.

Lemma transition_range (Tds t : R) :
  0 <= reactionComponentTransition Tds t <= 1.
Proof. unfold reactionComponentTransition. apply clip_range. lra. Qed.

Lemma Rabs_mult_unit (a f : R) : 0 <= f <= 1 -> Rabs (a * f) <= Rabs a.
Proof.
  intros [H0 H1]. rewrite Rabs_mult, (Rabs_right f) by lra.
  pose proof (Rabs_pos a). nra.
Qed.

(** X9. In double support with a leg that leads, the force and the
    torque given to the trailing leg are, axis by axis, at most the
    anchored value in absolute value, whatever the elapsed time and
    whatever [Tds]. *)
Theorem double_support_trailing_bounded `{M : ModelInterface}
    (eng : Engine) (det : Detector) (uninit : Locals) (input : Input) :
  isDetectorReady det = true ->
  getPhase det = GaitPhase.DOUBLE_SUPPORT ->
  let r := solve eng det uninit input in
  let below (a b : Vec3) :=
    Rabs (vx a) <= Rabs (vx b) /\ Rabs (vy a) <= Rabs (vy b) /\
    Rabs (vz a) <= Rabs (vz b) in
  (getLeadingLeg det = LeadingLeg.RIGHT ->
   below (force (left (output r))) (totalForceAtThs (engine r)) /\
   below (torque (left (output r))) (totalMomentAtThs (engine r))) /\
  (getLeadingLeg det = LeadingLeg.LEFT ->
   below (force (right (output r))) (totalForceAtThs (engine r)) /\
   below (torque (right (output r))) (totalMomentAtThs (engine r))).
Proof.
  intros Hr Hp. unfold solve. rewrite Hr.
  cbn [engine output totalForceAtThs totalMomentAtThs].
  unfold seperateReactionComponents. rewrite Hp.
  pose proof (transition_range (getDoubleSupportDuration det)) as Hf.
  split; intros Hl; rewrite Hl; cbn [fst snd left right force torque];
    unfold trailingComponent; cbn [vx vy vz];
    repeat split; apply Rabs_mult_unit, Hf.
Qed.

Lemma double_support_trailing_bounded_witness :
  let r := solve Slider.engine0
             (Slider.detector true GaitPhase.DOUBLE_SUPPORT LeadingLeg.RIGHT)
             Slider.uninit1 Slider.input0 in
  Rabs (vy (force (left (output r)))) <=
  Rabs (vy (totalForceAtThs (engine r))).
Proof.
  exact (proj1 (proj2 (proj1 (proj1
           (double_support_trailing_bounded Slider.engine0
              (Slider.detector true GaitPhase.DOUBLE_SUPPORT LeadingLeg.RIGHT)
              Slider.uninit1 Slider.input0 eq_refl eq_refl) eq_refl)))).
Defined.

Lemma solve_keeps_anchors `{M : ModelInterface}
    (eng : Engine) (det : Detector) (uninit : Locals) (input : Input) :
  ~ at_heel_strike (det, uninit, input) ->
  totalForceAtThs (engine (solve eng det uninit input)) = totalForceAtThs eng /\
  totalMomentAtThs (engine (solve eng det uninit input)) = totalMomentAtThs eng.
Proof.
  unfold at_heel_strike. simpl. intros Hn. unfold solve.
  destruct (isDetectorReady det) eqn:Hr; [| split; reflexivity].
  destruct (Req_dec_T (in_t input - getHeelStrikeTime det) 0) as [H0 | H0].
  - exfalso. apply Hn. split; [reflexivity | exact H0].
  - split; reflexivity.
Qed.

(** X10. The anchors are held from one heel strike to the next: over any
    sequence of calls none of which is a ready call at the instant of the
    heel strike, the two anchors after the last call are the anchors
    before the first one. *)
Theorem anchors_held `{M : ModelInterface}
    (calls : list (Detector * Locals * Input)) (eng : Engine) :
  (forall call, In call calls -> ~ at_heel_strike call) ->
  totalForceAtThs (solve_stream eng calls) = totalForceAtThs eng /\
  totalMomentAtThs (solve_stream eng calls) = totalMomentAtThs eng.
Proof.
  revert eng. induction calls as [| [[det uninit] input] rest IH];
    intros eng Hall.
  - split; reflexivity.
  - simpl.
    destruct (IH (engine (solve eng det uninit input))) as [HF HM].
    { intros call Hin. apply Hall. right. exact Hin. }
    destruct (solve_keeps_anchors eng det uninit input) as [HF1 HM1].
    { apply Hall. left. reflexivity. }
    rewrite HF, HM, HF1, HM1. split; reflexivity.
Qed.

(** Two calls on the slider after the heel strike at time 1, then one
    call while the detector is not ready. *)
Lemma anchors_held_witness :
  totalForceAtThs
    (solve_stream Slider.engine0
       [(Slider.detector true GaitPhase.DOUBLE_SUPPORT LeadingLeg.LEFT,
         Slider.uninit1, Slider.input0);
        (Slider.detector true GaitPhase.RIGHT_SWING LeadingLeg.LEFT,
         Slider.uninit1, Slider.input0);
        (mkDetector false GaitPhase.DOUBLE_SUPPORT LeadingLeg.LEFT 2 1 1 1,
         Slider.uninit1, Slider.input0)]) = Vec3_0.
Proof.
  refine (proj1 (anchors_held _ Slider.engine0 _)).
  intros call Hin. unfold at_heel_strike.
  repeat (destruct Hin as [Hin | Hin]; [subst call; simpl; intros [H1 H2];
                                        first [discriminate | lra] |]).
  contradiction.
Defined.

(** ** What solve reads and writes *)

(** X11. A call of [solve] writes on [cerr] exactly when the detector is
    ready, the phase is double support and no leg leads; in every other
    call nothing is written. *)
Theorem solve_cerr_iff `{M : ModelInterface}
    (eng : Engine) (det : Detector) (uninit : Locals) (input : Input) :
  cerr (solve eng det uninit input) <> [] <->
  (isDetectorReady det = true /\
   getPhase det = GaitPhase.DOUBLE_SUPPORT /\
   getLeadingLeg det = LeadingLeg.INVALID).
Proof.
  unfold solve, seperateReactionComponents, computeReactionPoint.
  destruct (isDetectorReady det), (getPhase det), (getLeadingLeg det);
    cbn [cerr snd app]; split;
    try (intros H; exfalso; apply H; reflexivity);
    try (intros [H1 [H2 H3]]; discriminate);
    try (intros _; discriminate);
    try (intros _; repeat split).
Qed.



(** ** The rotation to the heading frame *)

Lemma sin_cos_1 (q : R) : sin q * sin q + cos q * cos q = 1.
Proof. pose proof (sin2_cos2 q) as H. unfold Rsqr in H. exact H. Qed.

Lemma Rotation_about_y_vertical (q : R) (v : Vec3) :
  vy (mat_vec (Rotation_about_y q) v) = vy v.
Proof. destruct v. unfold mat_vec, Rotation_about_y, dot. simpl. ring. Qed.

Lemma Rotation_about_y_dot (q : R) (v w : Vec3) :
  dot (mat_vec (Rotation_about_y q) v) (mat_vec (Rotation_about_y q) w) =
  dot v w.
Proof.
  destruct v as [a b c], w as [d e f].
  unfold mat_vec, Rotation_about_y, dot. simpl.
  pose proof (sin_cos_1 q) as H.
  replace ((cos q * a + 0 * b + sin q * c) * (cos q * d + 0 * e + sin q * f) +
           (0 * a + 1 * b + 0 * c) * (0 * d + 1 * e + 0 * f) +
           (- sin q * a + 0 * b + cos q * c) *
           (- sin q * d + 0 * e + cos q * f))
    with ((sin q * sin q + cos q * cos q) * (a * d + c * f) + b * e) by ring.
  rewrite H. ring.
Qed.

(** X13. The rotation to the heading frame is a turn about the vertical
    axis: the total reaction force and moment that [solve] splits have
    the vertical component and the norm of the force and moment that
    [computeTotalReactionComponents] has computed. *)
Theorem heading_rotation_isometry `{M : ModelInterface}
    (eng : Engine) (input : Input) :
  let raw :=
    computeTotalReactionComponents (parameters eng) (realizedState eng input)
      input Vec3_0 Vec3_0 in
  let rot := rotatedTotalReaction eng input in
  vy (fst rot) = vy (fst raw) /\ norm (fst rot) = norm (fst raw) /\
  vy (snd rot) = vy (snd raw) /\ norm (snd rot) = norm (snd raw).
Proof.
  unfold rotatedTotalReaction, headingRotation, computeGaitDirectionRotation,
    norm.
  cbn [fst snd].
  repeat split;
    first [apply Rotation_about_y_vertical
          | rewrite Rotation_about_y_dot; reflexivity].
Qed.

Lemma computeGaitDirectionRotation_angle `{M : ModelInterface}
    (st : State) (buf : Buffer) (bodyName : string) :
  let buf' :=
    buffer_insert buf
      (row0 (X_R (getBodyTransform st
                    (getMobilizedBodyIndex (getBody bodyName))))) in
  computeGaitDirectionRotation st buf bodyName =
  (Rotation_about_y
     (headingAngle (projectionOnPlane (buffer_mean buf') Vec3_0 (mkVec3 0 1 0))),
   buf').
Proof. reflexivity. Qed.

(** X14. The rotation that [computeGaitDirectionRotation] returns is the
    turn about the vertical axis by [headingAngle] of the mean heading of
    the buffer, after the insertion, projected on the ground plane. For
    a direction whose forward component is not zero that angle is
    strictly between [- PI / 2] and [PI / 2] and is the same as for the
    mirror image of the direction on the other side of the forward axis;
    it is not negative for a positive forward component and not positive
    for a negative one: its sign is the sign of the forward component,
    not the side of the deviation. *)
Theorem heading_angle_unsigned `{M : ModelInterface}
    (st : State) (buf : Buffer) (bodyName : string) :
  let g :=
    projectionOnPlane
      (buffer_mean
         (buffer_insert buf
            (row0 (X_R (getBodyTransform st
                          (getMobilizedBodyIndex (getBody bodyName)))))))
      Vec3_0 (mkVec3 0 1 0) in
  fst (computeGaitDirectionRotation st buf bodyName) =
    Rotation_about_y (headingAngle g) /\
  (forall x y z, x <> 0 ->
     - PI / 2 < headingAngle (mkVec3 x y z) < PI / 2 /\
     headingAngle (mkVec3 x y z) = headingAngle (mkVec3 x y (- z))) /\
  (forall d, 0 < vx d -> 0 <= headingAngle d) /\
  (forall d, vx d < 0 -> headingAngle d <= 0).
Proof.
  cbv zeta. split; [| split; [| split]].
  - rewrite computeGaitDirectionRotation_angle. reflexivity.
  - intros x y z Hx. split.
    + unfold headingAngle. cbv zeta.
      pose proof (atan_bound (norm (cross (mkVec3 x y z) (mkVec3 1 0 0)) /
                              dot (mkVec3 x y z) (mkVec3 1 0 0))) as Hb.
      lra.
    + unfold headingAngle, norm, cross, dot. simpl.
      f_equal. unfold Rdiv. f_equal; f_equal; ring.
  - intros d Hd. unfold headingAngle. cbv zeta.
    assert (Hdot : dot d (mkVec3 1 0 0) = vx d) by (unfold dot; simpl; ring).
    rewrite Hdot.
    assert (Hq : 0 <= norm (cross d (mkVec3 1 0 0)) / vx d).
    { unfold Rdiv. apply Rmult_le_pos; [apply sqrt_pos |].
      left. apply Rinv_0_lt_compat. exact Hd. }
    destruct Hq as [Hlt | Heq].
    + left. pose proof (atan_increasing _ _ Hlt) as Hi.
      rewrite atan_0 in Hi. exact Hi.
    + rewrite <- Heq, atan_0. right. reflexivity.
  - intros d Hd. unfold headingAngle. cbv zeta.
    assert (Hdot : dot d (mkVec3 1 0 0) = vx d) by (unfold dot; simpl; ring).
    rewrite Hdot.
    assert (Hq : norm (cross d (mkVec3 1 0 0)) / vx d <= 0).
    { unfold Rdiv.
      pose proof (sqrt_pos (dot (cross d (mkVec3 1 0 0))
                                (cross d (mkVec3 1 0 0)))) as Hs.
      assert (Hi : / vx d < 0) by (apply Rinv_lt_0_compat; exact Hd).
      unfold norm. nra. }
    destruct Hq as [Hlt | Heq].
    + left. pose proof (atan_increasing _ _ Hlt) as Hi.
      rewrite atan_0 in Hi. exact Hi.
    + rewrite Heq, atan_0. right. reflexivity.
Qed.

(** ** The Newton-Euler method *)

Lemma mat_vec_0 (I : Mat33) : mat_vec I Vec3_0 = Vec3_0.
Proof.
  destruct I as [[a b c] [d e f] [g h i]].
  unfold mat_vec, dot, Vec3_0. simpl. f_equal; ring.
Qed.

Lemma cross_0_l (v : Vec3) : cross Vec3_0 v = Vec3_0.
Proof. destruct v. unfold cross, Vec3_0. simpl. f_equal; ring. Qed.

Lemma newtonEuler_fold `{M : ModelInterface}
    (vel acc : nat -> SpatialVec) (a : Vec3) (bodies : list Body) :
  (forall body, In body bodies ->
     sv0 (vel (getMobilizedBodyIndex body)) = Vec3_0 /\
     sv0 (acc (getMobilizedBodyIndex body)) = Vec3_0 /\
     sv1 (acc (getMobilizedBodyIndex body)) = a) ->
  forall F0 M0,
    fold_left (newtonEulerStep vel acc) bodies (F0, M0) =
    (vadd F0 (smul (totalMass bodies) (vsub a getGravity)), M0).
Proof.
  induction bodies as [| body rest IH]; intros Hall F0 M0.
  - simpl. f_equal. destruct F0, a, getGravity.
    unfold vadd, smul, vsub. simpl. f_equal; ring.
  - simpl fold_left. unfold newtonEulerStep at 2. cbn [fst snd].
    destruct (Hall body (or_introl eq_refl)) as [Hv [Ha0 Ha1]].
    rewrite Hv, Ha0, Ha1, mat_vec_0, cross_0_l.
    rewrite IH by (intros b Hb; apply Hall; right; exact Hb).
    f_equal.
    + simpl totalMass. destruct F0, a, getGravity.
      unfold vadd, smul, vsub. simpl. f_equal; ring.
    + destruct M0. unfold vadd, Vec3_0. simpl. f_equal; ring.
Qed.

(** X15. The Newton-Euler method on a model that moves as one block
    without turning (no body has an angular velocity or an angular
    acceleration, every body has the linear acceleration [a]): the total
    force is the total mass times [a - gravity] and the total moment is
    zero. At rest the force is the weight turned upwards, in free fall
    it is zero. *)
Theorem newton_euler_rigid_translation `{M : ModelInterface}
    (p : Parameters) (st : State) (input : Input) (a : Vec3) :
  method p = NewtonEuler ->
  (forall body, In body getBodySet ->
     let bix := getMobilizedBodyIndex body in
     sv0 (multiplyBySystemJacobian st (qDot input) bix) = Vec3_0 /\
     sv0 (calcBodyAccelerationFromUDot st (qDDot input) bix) = Vec3_0 /\
     sv1 (calcBodyAccelerationFromUDot st (qDDot input) bix) = a) ->
  let total := computeTotalReactionComponents p st input Vec3_0 Vec3_0 in
  total = (smul (totalMass getBodySet) (vsub a getGravity), Vec3_0) /\
  (a = Vec3_0 -> fst total = smul (- totalMass getBodySet) getGravity) /\
  (a = getGravity -> fst total = Vec3_0).
Proof.
  intros Hm Hall.
  assert (Ht : computeTotalReactionComponents p st input Vec3_0 Vec3_0 =
               (smul (totalMass getBodySet) (vsub a getGravity), Vec3_0)).
  { unfold computeTotalReactionComponents. rewrite Hm.
    rewrite (newtonEuler_fold _ _ a getBodySet Hall).
    f_equal. destruct a, getGravity.
    unfold vadd, smul, vsub, Vec3_0. simpl. f_equal; ring. }
  cbv zeta. rewrite Ht. cbn [fst].
  split; [reflexivity | split]; intros Ha; subst a.
  - destruct getGravity. unfold smul, vsub, Vec3_0. simpl. f_equal; ring.
  - destruct getGravity. unfold smul, vsub, Vec3_0. simpl. f_equal; ring.
Qed.

(** The slider at rest: the total force is the weight turned upwards. *)
Lemma newton_euler_rigid_translation_witness :
  fst (@computeTotalReactionComponents Slider.model Slider.params Vec3_0
         Slider.input0 Vec3_0 Vec3_0) =
  smul (- @totalMass [Slider.body]) (mkVec3 0 (-10) 0).
Proof.
  refine (proj1 (proj2 (@newton_euler_rigid_translation Slider.model
                          Slider.params Vec3_0 Slider.input0 Vec3_0
                          eq_refl _)) eq_refl).
  intros body Hin. simpl. repeat split.
Defined.

(** ** Method selection, again *)

(** X16. [selectMethod] gives the same result, the throw included, on
    any two names that are the same up to case. *)
Theorem selectMethod_caseless (a b : string) :
  caseless_eq a b -> selectMethod a = selectMethod b.
Proof.
  intros H. apply caseless_eq_toLower in H.
  unfold selectMethod. rewrite H. reflexivity.
Qed.

Lemma selectMethod_caseless_witness :
  selectMethod "Inverse-Dynamics" = selectMethod "INVERSE-dynamics".
Proof.
  apply selectMethod_caseless. simpl. repeat split.
Defined.

(** * Properties of Visualization.cpp *)

Section MeasureFPSProperties.

Variable toString : R -> nat -> string.
Variable ticksPerMs : Z.

Lemma measureFPS_quiet (txt : string) (c p now0 now1 : Z) :
  (Visualization.milliseconds_of ticksPerMs (now1 - p) <= 1000)%Z ->
  Visualization.measureFPS toString ticksPerMs
    (Visualization.mkFPSDecorator txt
       (Some (Visualization.mkStatics c p))) now0 now1 =
  Visualization.mkFPSDecorator txt
    (Some (Visualization.mkStatics (c + 1) p)).
Proof.
  intros Hq. unfold Visualization.measureFPS. simpl.
  destruct (Z.ltb_spec 1000
              (Visualization.milliseconds_of ticksPerMs (now1 - p)));
    [lia | reflexivity].
Qed.

Lemma measureFPS_stream_quiet (txt : string) (p : Z)
    (quiet : list (Z * Z)) :
  (forall r, In r quiet ->
     (Visualization.milliseconds_of ticksPerMs (snd r - p) <= 1000)%Z) ->
  forall c,
    Visualization.measureFPS_stream toString ticksPerMs
      (Visualization.mkFPSDecorator txt
         (Some (Visualization.mkStatics c p))) quiet =
    Visualization.mkFPSDecorator txt
      (Some (Visualization.mkStatics (c + Z.of_nat (List.length quiet)) p)).
Proof.
  induction quiet as [| [n0 n1] rest IH]; intros Hall c.
  - simpl. rewrite Z.add_0_r. reflexivity.
  - cbn [Visualization.measureFPS_stream].
    rewrite measureFPS_quiet by (apply (Hall (n0, n1)); left; reflexivity).
    rewrite IH by (intros r Hr; apply Hall; right; exact Hr).
    do 3 f_equal. cbn [List.length]. lia.
Qed.

(** X17. [measureFPS] counts its calls: while no more than 1000 whole
    milliseconds have gone by since the reference time, a call adds 1
    to the counter and changes neither the text nor the reference time;
    the first call after that shows as FPS the counter with all these
    calls and itself added (the number of calls since the last report,
    which has left the counter at 0), takes its clock reading as the new
    reference time and sets the counter back to 0. *)
Theorem measureFPS_reports_call_count (txt : string) (c p : Z)
    (quiet : list (Z * Z)) (now0 now1 : Z) :
  (forall r, In r quiet ->
     (Visualization.milliseconds_of ticksPerMs (snd r - p) <= 1000)%Z) ->
  (1000 < Visualization.milliseconds_of ticksPerMs (now1 - p))%Z ->
  let d :=
    Visualization.measureFPS_stream toString ticksPerMs
      (Visualization.mkFPSDecorator txt
         (Some (Visualization.mkStatics c p))) quiet in
  let n := (c + Z.of_nat (List.length quiet) + 1)%Z in
  d = Visualization.mkFPSDecorator txt
        (Some (Visualization.mkStatics (c + Z.of_nat (List.length quiet)) p))
  /\
  Visualization.measureFPS toString ticksPerMs d now0 now1 =
    Visualization.mkFPSDecorator
      ("FPS: " ++ Visualization.to_string n ++ " | Delay: " ++
       toString (1000 / IZR n) 2 ++ "ms")
      (Some (Visualization.mkStatics 0 now1)).
Proof.
  intros Hq Hr. cbv zeta.
  rewrite (measureFPS_stream_quiet txt p quiet Hq c).
  split; [reflexivity |].
  unfold Visualization.measureFPS. simpl.
  destruct (Z.ltb_spec 1000
              (Visualization.milliseconds_of ticksPerMs (now1 - p)));
    [reflexivity | lia].
Qed.

Lemma quot_threshold (d : Z) :
  (0 < ticksPerMs)%Z ->
  (1000 < Z.quot d ticksPerMs <-> 1001 * ticksPerMs <= d)%Z.
Proof.
  intros Ht.
  destruct (Z.le_gt_cases 0 d) as [Hd | Hd].
  - rewrite Z.quot_div_nonneg by lia. split; intros H.
    + assert (H1 : (1001 <= d / ticksPerMs)%Z) by lia.
      pose proof (Z.mul_div_le d ticksPerMs Ht). nia.
    + assert (H1 : (1001 <= d / ticksPerMs)%Z)
        by (apply Z.div_le_lower_bound; lia).
      lia.
  - assert (Hq : (Z.quot d ticksPerMs <= 0)%Z).
    { replace d with (- (- d))%Z by lia.
      rewrite Z.quot_opp_l by lia.
      pose proof (Z.quot_pos (- d) ticksPerMs). lia. }
    split; intros H; nia.
Qed.

(** X18. With a positive number of ticks in a millisecond and a counter
    that is not negative, a call of [measureFPS] reports (sets the
    counter back to 0 and takes the new reference time) exactly when at
    least 1001 milliseconds of ticks have gone by since the reference
    time: the elapsed time is cut to whole milliseconds before it is
    compared with 1000. *)
Theorem measureFPS_threshold (txt : string) (c p now0 now1 : Z) :
  (0 < ticksPerMs)%Z -> (0 <= c)%Z ->
  let d' :=
    Visualization.measureFPS toString ticksPerMs
      (Visualization.mkFPSDecorator txt
         (Some (Visualization.mkStatics c p))) now0 now1 in
  (Visualization.statics d' = Some (Visualization.mkStatics 0 now1) <->
   (1001 * ticksPerMs <= now1 - p)%Z) /\
  (Visualization.statics d' = Some (Visualization.mkStatics (c + 1) p) <->
   (now1 - p < 1001 * ticksPerMs)%Z).
Proof.
  intros Ht Hc. cbv zeta.
  pose proof (quot_threshold (now1 - p) Ht) as Hq.
  unfold Visualization.measureFPS, Visualization.milliseconds_of.
  cbn [Visualization.statics Visualization.counter Visualization.previousTime].
  destruct (Z.ltb_spec 1000 (Z.quot (now1 - p) ticksPerMs)) as [H | H];
    cbn [Visualization.statics]; split; split; intros H1;
    try reflexivity; try lia;
    try (injection H1; intros; lia).
Qed.

End MeasureFPSProperties.

(** With a clock of a million ticks in a millisecond: three calls in the
    first second, then one call 1500 ms after the reference time. *)
Lemma measureFPS_reports_call_count_witness :
  Visualization.text
    (Visualization.measureFPS (fun _ _ => "250.00"%string) 1000000
       (Visualization.measureFPS_stream (fun _ _ => "250.00"%string) 1000000
          (Visualization.mkFPSDecorator ""
             (Some (Visualization.mkStatics 0 0)))
          [(0, 100000000); (0, 500000000); (0, 1000999999)]%Z)
       0 1500000000) = "FPS: 4 | Delay: 250.00ms"%string.
Proof.
  refine (f_equal Visualization.text
            (proj2 (measureFPS_reports_call_count
                      (fun _ _ => "250.00"%string) 1000000 "" 0 0
                      [(0, 100000000); (0, 500000000); (0, 1000999999)]%Z
                      0 1500000000 _ _))).
  - intros r Hin.
    repeat (destruct Hin as [Hin | Hin]; [subst r; vm_compute; discriminate |]).
    contradiction.
  - vm_compute. reflexivity.
Defined.

Lemma measureFPS_threshold_witness :
  Visualization.statics
    (Visualization.measureFPS (fun _ _ => ""%string) 1000000
       (Visualization.mkFPSDecorator ""
          (Some (Visualization.mkStatics 5 0))) 0 1000999999) =
  Some (Visualization.mkStatics 6 0).
Proof.
  apply (proj2 (measureFPS_threshold (fun _ _ => ""%string) 1000000 "" 5 0 0
                  1000999999 eq_refl (Pos2Z.is_nonneg 5))).
  vm_compute. reflexivity.
Defined.

Section MeasureFPSInvariant.

Variable toString : R -> nat -> string.
Variable ticksPerMs : Z.

Lemma measureFPS_counter_step (d : Visualization.FPSDecorator) (k now0 now1 : Z) :
  counter_within d k ->
  exists s,
    Visualization.statics
      (Visualization.measureFPS toString ticksPerMs d now0 now1) = Some s /\
    (0 <= Visualization.counter s <= k + 1)%Z.
Proof.
  unfold counter_within, Visualization.measureFPS. intros Hk.
  destruct (Visualization.statics d) as [s |];
    cbn [Visualization.counter Visualization.previousTime];
    match goal with
    | |- context [(1000 <? ?x)%Z] => destruct (1000 <? x)%Z
    end; eexists; (split; [reflexivity |]);
    cbn [Visualization.counter]; lia.
Qed.

(** X19. The counter of [measureFPS] is never negative, whichever
    decorator has made the calls before: if the statics are not
    initialized yet, or hold a counter between 0 and [k], then after any
    further calls they are initialized and the counter is between 0 and
    [k] plus the number of these calls. So the count that a report
    prints and divides 1000 by is at least 1. *)
Theorem measureFPS_counter_bounds (clock : list (Z * Z))
    (d : Visualization.FPSDecorator) (k : Z) :
  counter_within d k ->
  match Visualization.statics
          (Visualization.measureFPS_stream toString ticksPerMs d clock) with
  | None => clock = [] /\ Visualization.statics d = None
  | Some s =>
      (0 <= Visualization.counter s <= k + Z.of_nat (List.length clock))%Z
  end.
Proof.
  revert d k. induction clock as [| [n0 n1] rest IH]; intros d k Hk.
  - simpl. unfold counter_within in Hk.
    destruct (Visualization.statics d); [lia | split; reflexivity].
  - cbn [Visualization.measureFPS_stream].
    destruct (measureFPS_counter_step d k n0 n1 Hk) as [s [Hs Hb]].
    specialize (IH (Visualization.measureFPS toString ticksPerMs d n0 n1)
                   (k + 1)%Z).
    unfold counter_within in IH. rewrite Hs in IH. specialize (IH Hb).
    destruct (Visualization.statics
                (Visualization.measureFPS_stream toString ticksPerMs
                   (Visualization.measureFPS toString ticksPerMs d n0 n1)
                   rest)) eqn:E.
    + cbn [List.length]. lia.
    + destruct IH as [_ Hnone]. discriminate Hnone.
Qed.

End MeasureFPSInvariant.

(** X20. A [ForceDecorator] draws its last update only, with the colour,
    the scale factor and the line thickness it was built with: after any
    sequence of updates followed by the update [(point, force)],
    [generateDecorations] keeps the geometry it is given and adds at its
    end one line, from [point] to [point + scaleFactor * force]. *)
Theorem ForceDecorator_draws_last_update (d : Visualization.ForceDecorator)
    (updates : list (Vec3 * Vec3)) (point force : Vec3)
    (geometry : list Visualization.DecorativeGeometry) :
  let d' :=
    Visualization.ForceDecorator_update
      (fold_left
         (fun d u => Visualization.ForceDecorator_update d (fst u) (snd u))
         updates d)
      point force in
  Visualization.ForceDecorator_generateDecorations d' geometry =
  geometry ++
  [Visualization.DecorativeLine point
     (vadd point (smul (Visualization.scaleFactor d) force))
     (Visualization.color d) (Visualization.lineThikness d)].
Proof.
  cbv zeta. revert d.
  induction updates as [| [p f] rest IH]; intros d.
  - reflexivity.
  - simpl fold_left. rewrite IH. reflexivity.
Qed.

Section VisualizerProperties.

Context `{MM : Visualization.MuscleModel}.
Variable toString : R -> nat -> string.
Variable ticksPerMs : Z.

(** X21. [update] never takes the request to terminate back, and raises
    it only for the escape key: after any sequence of calls
    [shouldTerminate] is true exactly when it was true before them or one
    of them has received a hit of the key [KeyEsc]; every call hands
    one state to the visualizer. *)
Theorem update_terminate_latch (frames : list Visualization.Frame)
    (v : Visualization.BasicModelVisualizer) :
  let v' := Visualization.update_stream toString ticksPerMs v frames in
  Visualization.shouldTerminate v' =
    (Visualization.shouldTerminate v ||
     existsb (fun f =>
                match Visualization.frame_key f with
                | Some (key, _) => (key =? Visualization.KeyEsc)%N
                | None => false
                end) frames)%bool /\
  List.length (Visualization.reported v') =
    (List.length frames + List.length (Visualization.reported v))%nat.
Proof.
  cbv zeta. revert v.
  induction frames as [| f rest IH]; intros v.
  - simpl. rewrite orb_false_r. split; reflexivity.
  - cbn [Visualization.update_stream existsb List.length].
    destruct (IH (Visualization.update toString ticksPerMs v
                    (Visualization.frame_now0 f) (Visualization.frame_now1 f)
                    (Visualization.frame_q f)
                    (Visualization.frame_activations f)
                    (Visualization.frame_key f))) as [Ht Hl].
    rewrite Ht, Hl. unfold Visualization.update.
    cbn [Visualization.shouldTerminate Visualization.reported List.length].
    split; [| lia].
    destruct (Visualization.frame_key f) as [[key modifiers] |].
    + destruct (key =? Visualization.KeyEsc)%N;
        destruct (Visualization.shouldTerminate v); reflexivity.
    + rewrite orb_false_l. reflexivity.
Qed.

End VisualizerProperties.

(** * Properties of IMUCalibrator.h *)

Section DriverErasureProperties.

Variable T : Type.

Lemma recordLoop_spec (n : nat) (d : IMUCalibrator.DriverErasure T) :
  IMUCalibrator.recordLoop T n d =
  IMUCalibrator.mkDriverErasure T (IMUCalibrator.m_driver T d)
    (IMUCalibrator.served T d + n)
    (IMUCalibrator.initIMUDataTable T d ++
     map (IMUCalibrator.m_driver T d) (seq (IMUCalibrator.served T d) n))
    (IMUCalibrator.cout T d).
Proof.
  revert d. induction n as [| n IH]; intros d.
  - simpl. rewrite Nat.add_0_r, app_nil_r. destruct d. reflexivity.
  - cbn [IMUCalibrator.recordLoop]. rewrite IH.
    cbn [IMUCalibrator.m_driver IMUCalibrator.served
         IMUCalibrator.initIMUDataTable IMUCalibrator.cout seq map].
    rewrite <- app_assoc. cbn [app].
    f_equal. lia.
Qed.

(** X22. [recordNumOfSamples] appends to the table exactly [numSamples]
    frames, the next ones of the driver in the order it gives them, and
    keeps the frames recorded before; with [numSamples] 0 the table is
    unchanged. Recording [a] samples and then [b] samples fills the table
    as recording [a + b] samples at once. *)
Theorem recordNumOfSamples_appends (d : IMUCalibrator.DriverErasure T)
    (a b : nat) :
  let table := IMUCalibrator.initIMUDataTable T in
  let record := IMUCalibrator.recordNumOfSamples T in
  table (record d a) =
    table d ++
    map (IMUCalibrator.m_driver T d) (seq (IMUCalibrator.served T d) a) /\
  List.length (table (record d a)) = (List.length (table d) + a)%nat /\
  table (record d 0%nat) = table d /\
  table (record (record d a) b) = table (record d (a + b)%nat).
Proof.
  cbv zeta. unfold IMUCalibrator.recordNumOfSamples.
  rewrite !recordLoop_spec.
  cbn [IMUCalibrator.m_driver IMUCalibrator.served
       IMUCalibrator.initIMUDataTable IMUCalibrator.cout].
  repeat split.
  - rewrite length_app, length_map, length_seq. reflexivity.
  - simpl. apply app_nil_r.
  - rewrite <- app_assoc, seq_app, map_app. reflexivity.
Qed.

End DriverErasureProperties.

(** A second decorator, built after the calls of a first one have left
    the counter at 5, counts from 5 on: after its own two calls the
    counter is at most 7. *)
Lemma measureFPS_counter_bounds_witness :
  match Visualization.statics
          (Visualization.measureFPS_stream (fun _ _ => ""%string) 1000000
             (Visualization.FPSDecorator_new
                (Some (Visualization.mkStatics 5 0)))
             [(0, 100000000); (0, 200000000)]%Z) with
  | None => False
  | Some s => (0 <= Visualization.counter s <= 7)%Z
  end.
Proof.
  pose proof (measureFPS_counter_bounds (fun _ _ => ""%string) 1000000
                [(0, 100000000); (0, 200000000)]%Z
                (Visualization.FPSDecorator_new
                   (Some (Visualization.mkStatics 5 0)))
                5%Z (conj (Pos2Z.is_nonneg 5) (Z.le_refl 5))) as H.
  destruct (Visualization.statics
              (Visualization.measureFPS_stream (fun _ _ => ""%string) 1000000
                 (Visualization.FPSDecorator_new
                    (Some (Visualization.mkStatics 5 0)))
                 [(0, 100000000); (0, 200000000)]%Z)).
  - exact H.
  - destruct H as [H _]. discriminate H.
Defined.

(** The statics are shared: after five quiet calls of a first decorator,
    a decorator that is new reports, on its second call, the seven
    calls. *)
Example measureFPS_second_decorator :
  let first :=
    Visualization.measureFPS_stream (fun _ _ => "142.86"%string) 1000000
      (Visualization.FPSDecorator_new None)
      [(0, 1); (0, 2); (0, 3); (0, 4); (0, 5)]%Z in
  Visualization.text
    (Visualization.measureFPS_stream (fun _ _ => "142.86"%string) 1000000
       (Visualization.FPSDecorator_new (Visualization.statics first))
       [(0, 6); (0, 1500000000)]%Z) = "FPS: 7 | Delay: 142.86ms"%string.
Proof. vm_compute. reflexivity. Qed.
